(** * node-messaging-service: the auth gate, the contact resolver, the
      address-book store, configuration loading and start-up.

    The repository holds two generations of the service side by side:
    - the JWKS generation: [config] with [internalApiKey], [createAuthMiddleware]
      (jose, remote key set), [startServer] with metadata discovery and
      [POST /api/address-book/contacts];
    - the shared-secret generation: [config] with [jwtSecret], the exported
      [authMiddleware] (jsonwebtoken), [startServer] without discovery and
      [POST /api/address-book].
    Both are embedded; the shared-secret one lives in modules named [Secret].

    Collaborators that are not code of the repository (jose / jsonwebtoken,
    axios and the identity provider behind it, the Firestore backend) are
    inputs of the model: an [Env] record says what they answer. The
    Firestore client's references are modelled in [Firestore]: an id is
    split at the slashes into path segments, so the store maps the path of a
    collection to its documents. Handlers run
    in a state-and-exception monad whose state holds the store, the response
    sent, [req.user] and the trace of outside calls; [console.error] lines
    are traced, the [console.log] lines of the happy paths are not. *)

From Stdlib Require Import Ascii String QArith.
From stdpp Require Import gmap strings list fin_maps.

Local Open Scope Z_scope.
Local Open Scope string_scope.
Local Open Scope list_scope.

(* ===================================================================== *)
(** ** JavaScript values *)
(* ===================================================================== *)

(** What [JSON.parse] produces, plus [undefined]. Numbers are rationals: the
    code only ever tests a number for truthiness. Objects are key/value lists
    in source order, read with the first binding of a key. *)
#[warnings="-register-all"]
Inductive JsValue : Type :=
| JUndefined
| JNull
| JBool (b : bool)
| JNum (q : Q)
| JStr (s : string)
| JArr (items : list JsValue)
| JObj (fields : list (string * JsValue)).

(** [!v] is [negb (truthy v)]. *)
Definition truthy (v : JsValue) : bool :=
  match v with
  | JUndefined | JNull => false
  | JBool b => b
  | JNum q => negb (Qeq_bool q 0)
  | JStr s => negb (String.eqb s EmptyString)
  | JArr _ | JObj _ => true
  end.

(** [typeof v === 'string'] *)
Definition is_string (v : JsValue) : bool :=
  match v with JStr _ => true | _ => false end.

Fixpoint assoc (k : string) (fs : list (string * JsValue)) : JsValue :=
  match fs with
  | [] => JUndefined
  | (k', v) :: rest => if String.eqb k k' then v else assoc k rest
  end.

(** [v.k] for the property names the code reads ([sub], [email], [alias],
    [id], [userId], ...): [None] is the TypeError JavaScript raises on
    [undefined] and [null]; primitives and arrays have no such property. *)
Definition prop (v : JsValue) (k : string) : option JsValue :=
  match v with
  | JUndefined | JNull => None
  | JObj fs => Some (assoc k fs)
  | _ => Some JUndefined
  end.

(** [xs.includes(s)] for a string [s]: SameValueZero against a string. *)
Definition array_includes (xs : list JsValue) (s : string) : bool :=
  existsb (fun v => match v with JStr t => String.eqb t s | _ => false end) xs.

(** [hay.includes(needle)] on strings. *)
Fixpoint string_includes (needle hay : string) : bool :=
  String.prefix needle hay ||
  match hay with
  | EmptyString => false
  | String _ rest => string_includes needle rest
  end.

(** [s.split(sep)] for a one-character separator. *)
Fixpoint split_on (sep : ascii) (s : string) : list string :=
  match s with
  | EmptyString => [EmptyString]
  | String c rest =>
      if Ascii.eqb c sep then EmptyString :: split_on sep rest
      else match split_on sep rest with
           | [] => [String c EmptyString]
           | h :: t => String c h :: t
           end
  end.

(** [s.toUpperCase()] on ASCII. *)
Definition upper_ascii (c : ascii) : ascii :=
  let n := nat_of_ascii c in
  if (Nat.leb 97 n && Nat.leb n 122)%bool then ascii_of_nat (n - 32) else c.

Fixpoint toUpperCase (s : string) : string :=
  match s with
  | EmptyString => EmptyString
  | String c rest => String (upper_ascii c) (toUpperCase rest)
  end.

(** What the Firestore client refuses to encode: [undefined] anywhere in the
    document ([ignoreUndefinedProperties] is left at its default). *)
Fixpoint has_undefined (v : JsValue) : bool :=
  match v with
  | JUndefined => true
  | JArr l => existsb has_undefined l
  | JObj fs => existsb (fun kv => has_undefined (snd kv)) fs
  | _ => false
  end.

(** The [Contact] interface of the protocol package: three fields, typed
    [string] at compile time and unchecked at run time. *)
Record Contact : Type := mkContact {
  id : JsValue;
  email : JsValue;
  alias : JsValue
}.

(** The object literal [{ id: .., email: .., alias: .. }]. *)
Definition contact_obj (c : Contact) : JsValue :=
  JObj [("id", id c); ("email", email c); ("alias", alias c)].

(* ===================================================================== *)
(** ** Effects: responses, events, exceptions, and the handler monad *)
(* ===================================================================== *)

Record Response : Type := mkResponse { status : Z; body : JsValue }.

(** [{ error: msg }] *)
Definition error_body (msg : string) : JsValue := JObj [("error", JStr msg)].

(** Why the token library rejected a token. *)
Inductive VerifyFailure : Type :=
| MalformedToken
| KeyNotFound
| SignatureInvalid
| Expired
| OtherFailure (msg : string).

Inductive Exn : Type :=
| JsError (msg : string)
| TypeError (msg : string)
| AxiosError (response_status : option Z)
| JwtError (why : VerifyFailure)
| StoreError (msg : string)
| AlgorithmError (supported : list JsValue).

(** The url of the look-up, [`${base}/api/users/by-email/${email}`], kept in
    its two interpolated parts. *)
Record LookupUrl : Type := mkUrl { url_base : JsValue; url_email : JsValue }.

(** Calls that leave the process, and log lines, in program order. *)
Inductive Event : Type :=
| EvVerify (token : string)
| EvLookup (url : LookupUrl) (headers : list (string * JsValue))
| EvStoreRead (owner : JsValue)
| EvStoreWrite (owner contact : JsValue) (data : JsValue)
| EvLog (label : string) (detail : option Exn)
| EvRejected (e : Exn)
| EvDiscover (base : JsValue)
| EvListCollections
| EvListen (port : JsValue)
| EvExit (code : Z).

(** A stored document is its list of fields. [Db] maps the path of a
    collection (its segments) to the documents of that collection, by
    document id. *)
Abbreviation Doc := (list (string * JsValue)).
Abbreviation Db := (gmap (list string) (gmap string (list (string * JsValue)))).

Record St : Type := mkSt {
  db : Db;
  res : option Response;       (* what [res.status(..).json(..)] sent *)
  user : option Contact;       (* [req.user] *)
  trace : list Event
}.

Inductive Outcome (A : Type) : Type :=
| Ok (a : A)
| Throw (e : Exn).
Arguments Ok {A} a.
Arguments Throw {A} e.

Definition M (A : Type) : Type := St -> Outcome A * St.

Definition ret {A} (a : A) : M A := fun s => (Ok a, s).
Definition throw {A} (e : Exn) : M A := fun s => (Throw e, s).
Definition bind {A B} (m : M A) (k : A -> M B) : M B :=
  fun s => match m s with
           | (Ok a, s') => k a s'
           | (Throw e, s') => (Throw e, s')
           end.
Definition try_catch {A} (m : M A) (h : Exn -> M A) : M A :=
  fun s => match m s with
           | (Ok a, s') => (Ok a, s')
           | (Throw e, s') => h e s'
           end.

Notation "'let*' x := m 'in' k" := (bind m (fun x => k))
  (at level 10, x name, m at level 100, k at level 200).
Notation "m ;; k" := (bind m (fun _ => k))
  (at level 100, k at level 200, right associativity).

Definition emit (e : Event) : M unit :=
  fun s => (Ok tt, mkSt (db s) (res s) (user s) (trace s ++ [e])).
Definition send (code : Z) (b : JsValue) : M unit :=
  fun s => (Ok tt, mkSt (db s) (Some (mkResponse code b)) (user s) (trace s)).
Definition set_user (c : Contact) : M unit :=
  fun s => (Ok tt, mkSt (db s) (res s) (Some c) (trace s)).
Definition get_user : M (option Contact) := fun s => (Ok (user s), s).
Definition get_db : M Db := fun s => (Ok (db s), s).
Definition put_db (d : Db) : M unit :=
  fun s => (Ok tt, mkSt d (res s) (user s) (trace s)).

(** [v.k], raising the TypeError of a read on [undefined] / [null]. *)
Definition read_prop (v : JsValue) (k : string) : M JsValue :=
  match prop v k with
  | Some x => ret x
  | None => throw (TypeError ("Cannot read properties of undefined (reading '" +:+ k +:+ "')"))
  end.

(** Calling an [async] handler from synchronous code ([next()] in a
    middleware): a throw inside the handler rejects the promise it returns
    and never reaches the caller's [catch]. *)
Definition call_async (h : M unit) : M unit :=
  fun s => match h s with
           | (Ok _, s') => (Ok tt, s')
           | (Throw e, s') =>
               (Ok tt, mkSt (db s') (res s') (user s') (trace s' ++ [EvRejected e]))
           end.

(** A request starts with nothing sent, no user attached and no call made. *)
Definition fresh (d : Db) : St := mkSt d None None [].

(* ===================================================================== *)
(** ** The collaborators *)
(* ===================================================================== *)

Inductive HttpResult : Type :=
| NetworkFailure
| Responded (code : Z) (data : JsValue).

(** What the outside world answers while one request (or start-up) runs. *)
Record Env : Type := mkEnv {
  (** jose's [jwtVerify(token, jwksClient)]: the payload or the rejection *)
  jwtVerify : string -> VerifyFailure + JsValue;
  (** jsonwebtoken's [jwt.verify(token, secret)] *)
  jwt_verify : string -> JsValue -> VerifyFailure + JsValue;
  (** the identity provider's look-up endpoint *)
  provider : LookupUrl -> list (string * JsValue) -> HttpResult;
  (** the provider's metadata document *)
  metadata_endpoint : HttpResult;
  (** whether the document store answers *)
  store_up : bool;
  (** the strings [new URL(..)] accepts *)
  valid_url : JsValue -> bool
}.

(** axios resolves on a 2xx status and rejects with an AxiosError carrying
    the response otherwise; a network failure carries no response. *)
Definition axios_result (r : HttpResult) : M JsValue :=
  match r with
  | NetworkFailure => throw (AxiosError None)
  | Responded code data =>
      if ((200 <=? code)%Z && (code <? 300)%Z)%bool then ret data
      else throw (AxiosError (Some code))
  end.

(** [axios.isAxiosError(error) && error.response?.status === 404] *)
Definition is_axios_404 (e : Exn) : bool :=
  match e with
  | AxiosError (Some code) => (code =? 404)%Z
  | _ => false
  end.

(** Code that throws or returns without touching the state. *)
Definition lift {A} (o : Outcome A) : M A := fun s => (o, s).

(** The document store client, as far as the service uses it: resource
    paths, references to collections and documents, [get] on a collection
    and [set] on a document. *)
Module Firestore.

(** [validateResourcePath]: a non-empty string without [//]. *)
Definition validateResourcePath (resourcePath : JsValue) : Outcome string :=
  match resourcePath with
  | JStr s =>
      if String.eqb s EmptyString
      then Throw (StoreError "Path must be a non-empty string.")
      else if string_includes "//" s
      then Throw (StoreError "Paths must not contain //.")
      else Ok s
  | _ => Throw (StoreError "Path must be a non-empty string.")
  end.

(** [ResourcePath.split]:
    [relativePath.split('/').filter(segment => segment.length > 0)], so a
    leading or trailing slash is dropped. *)
Definition split (relativePath : string) : list string :=
  List.filter (fun segment => negb (String.eqb segment EmptyString))
    (split_on "/"%char relativePath).

(** [path.append(relativePath)] *)
Definition append (path : list string) (relativePath : string) : list string :=
  path ++ split relativePath.

(** A document path has an even number of segments, a collection path an
    odd one. *)
Definition isDocument (path : list string) : bool :=
  negb (Nat.eqb (length path) 0) && Nat.even (length path).
Definition isCollection (path : list string) : bool := Nat.odd (length path).

(** [collectionRef.doc(documentPath)]: the path of the document. *)
Definition doc (collectionPath : list string) (documentPath : JsValue)
  : Outcome (list string) :=
  match validateResourcePath documentPath with
  | Throw e => Throw e
  | Ok relativePath =>
      let path := append collectionPath relativePath in
      if isDocument path then Ok path
      else Throw (StoreError "Your path does not contain an even number of components.")
  end.

(** [db.collection(collectionPath)] (from the root, [[]]) and
    [documentRef.collection(collectionPath)]: the path of the collection. *)
Definition collection (parentPath : list string) (collectionPath : JsValue)
  : Outcome (list string) :=
  match validateResourcePath collectionPath with
  | Throw e => Throw e
  | Ok relativePath =>
      let path := append parentPath relativePath in
      if isCollection path then Ok path
      else Throw (StoreError "Your path does not contain an odd number of components.")
  end.

(** The collection a document is in, and its id: the last segment. *)
Definition parent (documentPath : list string) : list string := removelast documentPath.
Definition id (documentPath : list string) : string := List.last documentPath EmptyString.

(** The documents of a collection. *)
Definition docs (d : Db) (collectionPath : list string) : gmap string Doc :=
  default ∅ (d !! collectionPath).

(** [.get()] on the collection: the documents' data. *)
Definition get (E : Env) (ownerV : JsValue) (collectionPath : list string)
  : M (list Doc) :=
  emit (EvStoreRead ownerV);;
  if store_up E
  then let* d := get_db in ret (map snd (map_to_list (docs d collectionPath)))
  else throw (StoreError "unavailable").

(** [.set(data)] without merge: the document is replaced. *)
Definition set (E : Env) (ownerV cidV : JsValue) (documentPath : list string)
    (data : Doc) : M unit :=
  if has_undefined (JObj data)
  then throw (StoreError "Cannot use undefined as a Firestore value")
  else
    emit (EvStoreWrite ownerV cidV (JObj data));;
    if store_up E
    then let* d := get_db in
         put_db (<[parent documentPath :=
                     <[id documentPath := data]> (docs d (parent documentPath))]> d)
    else throw (StoreError "unavailable").

End Firestore.

(* ===================================================================== *)
(** ** internal/firestore.ts *)
(* ===================================================================== *)

(** [db.collection('authorized_users').doc(userId).collection('address_book')],
    the reference both functions start from. *)
Definition address_book (userId : JsValue) : Outcome (list string) :=
  match Firestore.collection [] (JStr "authorized_users") with
  | Throw e => Throw e
  | Ok users =>
      match Firestore.doc users userId with
      | Throw e => Throw e
      | Ok user => Firestore.collection user (JStr "address_book")
      end
  end.

(** The arrow function mapped over [snapshot.docs], on [doc.data()]. *)
Definition doc_to_contact (data : Doc) : Contact :=
  {| id := assoc "userId" data;
     email := assoc "email" data;
     alias := assoc "alias" data |}.

Definition getUserAddressBook (E : Env) (userId : JsValue) : M (list Contact) :=
  let* book := lift (address_book userId) in
  let* docs := Firestore.get E userId book in
  match docs with
  | [] => ret []                            (* [snapshot.empty] *)
  | _ => ret (map doc_to_contact docs)
  end.

Definition addContactToAddressBook (E : Env) (ownerId : JsValue) (contactToAdd : JsValue)
  : M unit :=
  let* book := lift (address_book ownerId) in
  let* cidV := read_prop contactToAdd "id" in
  let* ref := lift (Firestore.doc book cidV) in
  let* a := read_prop contactToAdd "alias" in
  let* e := read_prop contactToAdd "email" in
  let* u := read_prop contactToAdd "id" in
  Firestore.set E ownerId cidV ref
    [("alias", a); ("email", e); ("userId", u)].

(* ===================================================================== *)
(** ** config.ts *)
(* ===================================================================== *)

(** [process.env.NAME] *)
Definition env_var (penv : gmap string string) (name : string) : JsValue :=
  match penv !! name with
  | Some s => JStr s
  | None => JUndefined
  end.

(** [a || b] *)
Definition js_or (a b : JsValue) : JsValue := if truthy a then a else b.

(** The validation loop over [requiredSecrets]: the first falsy entry throws. *)
Fixpoint check_required (get : string -> JsValue) (secrets : list string)
  : Outcome unit :=
  match secrets with
  | [] => Ok tt
  | secret :: rest =>
      if negb (truthy (get secret))
      then Throw (JsError ("FATAL: Missing required environment variable: "
                           +:+ toUpperCase secret))
      else check_required get rest
  end.

Record Config : Type := mkConfig {
  port : JsValue;
  gcpProjectId : JsValue;
  identityServiceUrl : JsValue;
  internalApiKey : JsValue
}.

(** [config[secret]] *)
Definition config_get (c : Config) (k : string) : JsValue :=
  if String.eqb k "port" then port c
  else if String.eqb k "gcpProjectId" then gcpProjectId c
  else if String.eqb k "identityServiceUrl" then identityServiceUrl c
  else if String.eqb k "internalApiKey" then internalApiKey c
  else JUndefined.

Definition requiredSecrets : list string :=
  ["gcpProjectId"; "identityServiceUrl"; "internalApiKey"].

(** Evaluating the module [config.ts]: the exported object, or the throw
    that aborts the import (and with it the process). *)
Definition load_config (penv : gmap string string) : Outcome Config :=
  let config :=
    {| port := js_or (env_var penv "PORT") (JNum 3001);
       gcpProjectId := env_var penv "GCP_PROJECT_ID";
       identityServiceUrl := env_var penv "IDENTITY_SERVICE_URL";
       internalApiKey := env_var penv "INTERNAL_API_KEY" |} in
  match check_required (config_get config) requiredSecrets with
  | Ok _ => Ok config
  | Throw e => Throw e
  end.

Module SecretConfig.

Record Config : Type := mkConfig {
  port : JsValue;
  gcpProjectId : JsValue;
  jwtSecret : JsValue;
  identityServiceUrl : JsValue
}.

Definition config_get (c : Config) (k : string) : JsValue :=
  if String.eqb k "port" then port c
  else if String.eqb k "gcpProjectId" then gcpProjectId c
  else if String.eqb k "jwtSecret" then jwtSecret c
  else if String.eqb k "identityServiceUrl" then identityServiceUrl c
  else JUndefined.

Definition requiredSecrets : list string :=
  ["gcpProjectId"; "jwtSecret"; "identityServiceUrl"].

Definition load_config (penv : gmap string string) : Outcome Config :=
  let config :=
    {| port := js_or (env_var penv "PORT") (JNum 3001);
       gcpProjectId := env_var penv "GCP_PROJECT_ID";
       jwtSecret := env_var penv "JWT_SECRET";
       identityServiceUrl := env_var penv "IDENTITY_SERVICE_URL" |} in
  match check_required (config_get config) requiredSecrets with
  | Ok _ => Ok config
  | Throw e => Throw e
  end.

End SecretConfig.

(* ===================================================================== *)
(** ** internal/auth/auth.middleware.ts *)
(* ===================================================================== *)

Definition dquote : string := String (ascii_of_nat 34) EmptyString.

Definition msg_bad_sub : string :=
  "Token payload is missing or has an invalid " +:+ dquote +:+ "sub" +:+ dquote
  +:+ " claim.".

Definition generic_401 : Response :=
  mkResponse 401 (error_body "Unauthorized: Invalid or expired token.").

(** [authHeader.split(' ')[1]]; [None] is [undefined]. *)
Definition bearer_token (authHeader : string) : option string :=
  split_on " "%char authHeader !! 1%nat.

(** [!authHeader || !authHeader.startsWith('Bearer ')] on
    [req.headers.authorization], a string or [undefined]. *)
Definition no_bearer (authHeader : option string) : bool :=
  match authHeader with
  | None => true
  | Some h => negb (truthy (JStr h)) || negb (String.prefix "Bearer " h)
  end.

Definition library_result (r : VerifyFailure + JsValue) : M JsValue :=
  match r with
  | inl why => throw (JwtError why)
  | inr payload => ret payload
  end.

(** The middleware returned by [createAuthMiddleware(jwksClient)]; the
    key-set client is the [jwtVerify] of the environment. *)
Definition createAuthMiddleware (E : Env) (authHeader : option string) (next : M unit)
  : M unit :=
  if no_bearer authHeader
  then send 401 (error_body "Unauthorized: No or invalid token provided.")
  else
    match bearer_token (default EmptyString authHeader) with
    | None => send 401 (error_body "Unauthorized: Token is missing.")
    | Some token =>
        if negb (truthy (JStr token))
        then send 401 (error_body "Unauthorized: Token is missing.")
        else
          try_catch
            (emit (EvVerify token);;
             let* payload := library_result (jwtVerify E token) in
             let* sub := read_prop payload "sub" in
             let* em := read_prop payload "email" in
             let* al := read_prop payload "alias" in
             if negb (is_string sub) || negb (truthy em) || negb (truthy al)
             then throw (JsError msg_bad_sub)
             else
               set_user {| id := sub; email := em; alias := al |};;
               call_async next)
            (fun error =>
               emit (EvLog "[AUTH] JWT validation error:" (Some error));;
               send 401 (error_body "Unauthorized: Invalid or expired token."))
    end.

Module SecretAuth.

(** The exported [authMiddleware] of the shared-secret generation. *)
Definition authMiddleware (E : Env) (config : SecretConfig.Config)
    (authHeader : option string) (next : M unit) : M unit :=
  if no_bearer authHeader
  then send 401 (error_body "Unauthorized: No token provided.")
  else
    match bearer_token (default EmptyString authHeader) with
    | None => throw (JsError "Token is undefined")
    | Some token =>
        match SecretConfig.jwtSecret config with
        | JUndefined | JNull => throw (JsError "jwtSecret is undefined")
        | secret =>
            try_catch
              (emit (EvVerify token);;
               let* decodedPayload := library_result (jwt_verify E token secret) in
               let* sub := read_prop decodedPayload "sub" in
               if negb (is_string sub)
               then throw (JsError msg_bad_sub)
               else
                 let* em := read_prop decodedPayload "email" in
                 let* al := read_prop decodedPayload "alias" in
                 set_user {| id := sub; email := em; alias := al |};;
                 call_async next)
              (fun error =>
                 emit (EvLog "JWT validation error:" (Some error));;
                 send 401 (error_body "Unauthorized: Invalid or expired token."))
        end
    end.

End SecretAuth.

(* ===================================================================== *)
(** ** main.ts: the routes *)
(* ===================================================================== *)

Record Request : Type := mkRequest {
  authorization : option string;   (* [req.headers.authorization] *)
  req_body : JsValue               (* [req.body] *)
}.

(** [req.user!.id]: the assertion is erased, the read throws on
    [undefined]. *)
Definition user_id : M JsValue :=
  let* u := get_user in
  match u with
  | Some c => ret (id c)
  | None => throw (TypeError "Cannot read properties of undefined (reading 'id')")
  end.

(** Handler of [GET /api/address-book]. *)
Definition get_address_book (E : Env) : M unit :=
  try_catch
    (let* uid := user_id in
     let* addressBook := getUserAddressBook E uid in
     send 200 (JArr (map contact_obj addressBook)))
    (fun error =>
       emit (EvLog "Failed to get address book:" (Some error));;
       send 500 (error_body "An internal error occurred.")).

(** Handler of [POST /api/address-book/contacts]. *)
Definition post_contact (E : Env) (config : Config) (req : Request) : M unit :=
  let* em := read_prop (req_body req) "email" in
  if negb (truthy em)
  then send 400 (error_body "Email is required.")
  else
    try_catch
      (let headers := [("X-Internal-API-Key", internalApiKey config)] in
       let url := mkUrl (identityServiceUrl config) em in
       emit (EvLookup url headers);;
       let* contactToAdd := axios_result (provider E url headers) in
       let* owner := user_id in
       addContactToAddressBook E owner contactToAdd;;
       send 201 contactToAdd)
      (fun error =>
         if is_axios_404 error
         then send 404 (error_body "User with that email not found.")
         else
           emit (EvLog "Failed to add contact:" (Some error));;
           send 500 (error_body "An internal error occurred while adding the contact.")).

Definition route_get (E : Env) (req : Request) : M unit :=
  createAuthMiddleware E (authorization req) (get_address_book E).

Definition route_post (E : Env) (config : Config) (req : Request) : M unit :=
  createAuthMiddleware E (authorization req) (post_contact E config req).

Module SecretMain.

(** Handler of [GET /api/address-book]. *)
Definition get_address_book (E : Env) : M unit :=
  try_catch
    (let* uid := user_id in
     let* addressBook := getUserAddressBook E uid in
     send 200 (JArr (map contact_obj addressBook)))
    (fun error =>
       emit (EvLog "Failed to get address book:" (Some error));;
       send 500 (error_body
         "An internal error occurred while retrieving the address book.")).

(** Handler of [POST /api/address-book]; the caller's own [Authorization]
    header is forwarded to the provider. *)
Definition post_contact (E : Env) (config : SecretConfig.Config) (req : Request)
  : M unit :=
  try_catch
    (let* contactEmail := read_prop (req_body req) "email" in
     if negb (truthy contactEmail)
     then send 400 (error_body "Email is required.")
     else
       let headers :=
         [("Authorization", from_option JStr JUndefined (authorization req))] in
       let lookupUrl := mkUrl (SecretConfig.identityServiceUrl config) contactEmail in
       emit (EvLookup lookupUrl headers);;
       let* contactToAdd := axios_result (provider E lookupUrl headers) in
       let* owner := user_id in
       addContactToAddressBook E owner contactToAdd;;
       send 201 contactToAdd)
    (fun error =>
       if is_axios_404 error
       then send 404 (error_body "User with that email not found.")
       else
         emit (EvLog "Failed to add contact:" (Some error));;
         send 500 (error_body "An internal error occurred while adding the contact.")).

Definition route_get (E : Env) (config : SecretConfig.Config) (req : Request) : M unit :=
  SecretAuth.authMiddleware E config (authorization req) (get_address_book E).

Definition route_post (E : Env) (config : SecretConfig.Config) (req : Request)
  : M unit :=
  SecretAuth.authMiddleware E config (authorization req) (post_contact E config req).

End SecretMain.

(* ===================================================================== *)
(** ** main.ts: start-up *)
(* ===================================================================== *)

Definition requiredAlg : string := "RS256".

(** [!supportedAlgs || !supportedAlgs.includes(requiredAlg)], then the
    [throw] whose message interpolates [supportedAlgs.join(', ')]. Only an
    array has both [includes] and [join]; a string has [includes] alone. *)
Definition check_algorithms (supportedAlgs : JsValue) : M unit :=
  if negb (truthy supportedAlgs)
  then throw (TypeError "supportedAlgs.join is not a function")
  else
    match supportedAlgs with
    | JArr xs =>
        if array_includes xs requiredAlg then ret tt
        else throw (AlgorithmError xs)
    | JStr s =>
        if string_includes requiredAlg s then ret tt
        else throw (TypeError "supportedAlgs.join is not a function")
    | _ => throw (TypeError "supportedAlgs.includes is not a function")
    end.

(** The body of [startServer]'s [try] block, up to [app.listen]. *)
Definition start_body (E : Env) (config : Config) : M unit :=
  if negb (truthy (gcpProjectId config)) || negb (truthy (identityServiceUrl config))
  then throw (JsError "Missing gcpProjectId or identityServiceUrl in configuration.")
  else
    emit (EvDiscover (identityServiceUrl config));;
    let* metadata := axios_result (metadata_endpoint E) in
    let* supportedAlgs := read_prop metadata "id_token_signing_alg_values_supported" in
    check_algorithms supportedAlgs;;
    emit (EvListCollections);;
    (if store_up E then ret tt else throw (StoreError "unavailable"));;
    let* jwks_uri := read_prop metadata "jwks_uri" in
    (if valid_url E jwks_uri then ret tt else throw (TypeError "Invalid URL"));;
    emit (EvListen (port config)).

Definition startServer (E : Env) (config : Config) : M unit :=
  try_catch (start_body E config)
    (fun error =>
       emit (EvLog "FATAL: SERVER FAILED TO START" (Some error));;
       emit (EvExit 1)).

(** The process: importing [config.ts] first, then [startServer()]. A throw
    while importing leaves the process dead before [main.ts] runs. *)
Definition boot (E : Env) (penv : gmap string string) : Outcome unit * St :=
  match load_config penv with
  | Throw e => (Throw e, fresh ∅)
  | Ok config => startServer E config (fresh ∅)
  end.

(** The server accepts requests once [app.listen] has been called. *)
Definition serving (s : St) : Prop := ∃ p, EvListen p ∈ trace s.

Module SecretStart.

Definition start_body (E : Env) (config : SecretConfig.Config) : M unit :=
  match SecretConfig.gcpProjectId config with
  | JUndefined | JNull => ret tt
  | _ =>
      emit (EvListCollections);;
      (if store_up E then ret tt else throw (StoreError "unavailable"));;
      emit (EvListen (SecretConfig.port config))
  end.

Definition startServer (E : Env) (config : SecretConfig.Config) : M unit :=
  try_catch (start_body E config)
    (fun error =>
       emit (EvLog "FATAL: SERVER FAILED TO START" (Some error));;
       emit (EvExit 1)).

Definition boot (E : Env) (penv : gmap string string) : Outcome unit * St :=
  match SecretConfig.load_config penv with
  | Throw e => (Throw e, fresh ∅)
  | Ok config => startServer E config (fresh ∅)
  end.

End SecretStart.

(* ===================================================================== *)
(** ** Sample inputs *)
(* ===================================================================== *)

Module Sample.

Definition payload_u1 : JsValue :=
  JObj [("sub", JStr "u1"); ("email", JStr "me@example.com"); ("alias", JStr "Me")].

Definition contact_a : JsValue :=
  JObj [("id", JStr "u2"); ("email", JStr "a@example.com"); ("alias", JStr "A")].

(** The same user after a change of address and alias. *)
Definition contact_a_renamed : JsValue :=
  JObj [("id", JStr "u2"); ("email", JStr "a@new.example"); ("alias", JStr "Ann")].

(** A record with a field beyond the three of a contact. *)
Definition contact_b : JsValue :=
  JObj [("id", JStr "u3"); ("email", JStr "b@example.com"); ("alias", JStr "B");
        ("role", JStr "admin")].

(** A record whose id has three segments. *)
Definition contact_nested : JsValue :=
  JObj [("id", JStr "x/y/z"); ("email", JStr "n@example.com"); ("alias", JStr "N")].

Definition me : Contact :=
  {| id := JStr "u1"; email := JStr "me@example.com"; alias := JStr "Me" |}.

(** The provider knows [a@example.com], [b@example.com] and
    [n@example.com]. *)
Definition lookup (url : LookupUrl) (_ : list (string * JsValue)) : HttpResult :=
  match url_email url with
  | JStr e => if String.eqb e "a@example.com" then Responded 200 contact_a
              else if String.eqb e "b@example.com" then Responded 200 contact_b
              else if String.eqb e "n@example.com" then Responded 200 contact_nested
              else Responded 404 (error_body "Not found")
  | _ => Responded 404 (error_body "Not found")
  end.

Definition metadata : JsValue :=
  JObj [("id_token_signing_alg_values_supported", JArr [JStr "RS256"]);
        ("jwks_uri", JStr "https://id.example.com/jwks")].

(** Tokens: [good] carries [payload_u1], [old] is expired, anything else
    has a bad signature. *)
Definition verify (token : string) : VerifyFailure + JsValue :=
  if String.eqb token "good" then inr payload_u1
  else if String.eqb token "old" then inl Expired
  else inl SignatureInvalid.

Definition env : Env :=
  {| jwtVerify := verify;
     jwt_verify := fun token _ => verify token;
     provider := lookup;
     metadata_endpoint := Responded 200 metadata;
     store_up := true;
     valid_url := is_string |}.

(** A signed token whose payload has no subject. *)
Definition payload_no_sub : JsValue :=
  JObj [("email", JStr "anon@example.com"); ("alias", JStr "Anon")].

Definition env_no_sub : Env :=
  {| jwtVerify := fun _ => inr payload_no_sub;
     jwt_verify := fun _ _ => inr payload_no_sub;
     provider := lookup;
     metadata_endpoint := Responded 200 metadata;
     store_up := true;
     valid_url := is_string |}.

(** A payload with a subject and nothing else. *)
Definition payload_sub_only : JsValue := JObj [("sub", JStr "u9")].

Definition env_sub_only : Env :=
  {| jwtVerify := fun _ => inr payload_sub_only;
     jwt_verify := fun _ _ => inr payload_sub_only;
     provider := lookup;
     metadata_endpoint := Responded 200 metadata;
     store_up := true;
     valid_url := is_string |}.

(** The same world with the document store unreachable. *)
Definition env_store_down : Env :=
  {| jwtVerify := verify;
     jwt_verify := fun token _ => verify token;
     provider := lookup;
     metadata_endpoint := Responded 200 metadata;
     store_up := false;
     valid_url := is_string |}.

Definition config : Config :=
  {| port := JNum 3001;
     gcpProjectId := JStr "proj";
     identityServiceUrl := JStr "https://id.example.com";
     internalApiKey := JStr "k" |}.

Definition secret_config : SecretConfig.Config :=
  {| SecretConfig.port := JNum 3001;
     SecretConfig.gcpProjectId := JStr "proj";
     SecretConfig.jwtSecret := JStr "s3cret";
     SecretConfig.identityServiceUrl := JStr "https://id.example.com" |}.

Definition request (auth : option string) (b : JsValue) : Request :=
  {| authorization := auth; req_body := b |}.

End Sample.

(* ===================================================================== *)
(** ** Vocabulary of the statements *)
(* ===================================================================== *)

(** The store after [set] on the document [key] of a collection. *)
Definition written (d : Db) (collectionPath : list string) (key : string) (data : Doc)
  : Db :=
  <[collectionPath := <[key := data]> (Firestore.docs d collectionPath)]> d.

(** The address book of an owner whose id is one path segment. *)
Definition book_of (owner : string) : list string :=
  ["authorized_users"; owner; "address_book"].

(** The object literal handed to [set], for the contact id [cid]. *)
Definition doc_of (cid : string) (a e : JsValue) : Doc :=
  [("alias", a); ("email", e); ("userId", JStr cid)].

Definition is_write (ev : Event) : bool :=
  match ev with EvStoreWrite _ _ _ => true | _ => false end.

Definition is_lookup (ev : Event) : bool :=
  match ev with EvLookup _ _ => true | _ => false end.

Definition is_read (ev : Event) : bool :=
  match ev with EvStoreRead _ => true | _ => false end.

(** The header carries the scheme prefix, and [token] is what the gate
    extracts from it. *)
Definition presents (authHeader : option string) (token : string) : Prop :=
  ∃ h, authHeader = Some h ∧ String.prefix "Bearer " h = true
       ∧ bearer_token h = Some token.

(** The header is the scheme prefix followed by a non-empty token. *)
Definition well_formed_bearer (h : string) : Prop :=
  ∃ t, t ≠ EmptyString ∧ h = "Bearer " +:+ t.

(** A payload whose [email] is the number 42: every claim is present, one
    has the wrong type, and the JWKS gate attaches the identity all the
    same. *)
Definition payload_email_42 : JsValue :=
  JObj [("sub", JStr "u1"); ("email", JNum 42); ("alias", JStr "A")].

Definition env_email_42 : Env :=
  {| jwtVerify := fun _ => inr payload_email_42;
     jwt_verify := fun _ _ => inr payload_email_42;
     provider := Sample.lookup;
     metadata_endpoint := Responded 200 Sample.metadata;
     store_up := true;
     valid_url := is_string |}.

(** A payload whose [email] is the number 0: present, and falsy. *)
Definition payload_email_0 : JsValue :=
  JObj [("sub", JStr "u1"); ("email", JNum 0); ("alias", JStr "A")].

Definition env_email_0 : Env :=
  {| jwtVerify := fun _ => inr payload_email_0;
     jwt_verify := fun _ _ => inr payload_email_0;
     provider := Sample.lookup;
     metadata_endpoint := Responded 200 Sample.metadata;
     store_up := true;
     valid_url := is_string |}.

(** The gates' checks of the payload the library returned:
    [typeof payload.sub !== 'string' || !payload.email || !payload.alias] in
    the JWKS generation, [typeof decodedPayload.sub !== 'string'] in the
    shared-secret one; reading a claim of [undefined] or [null] throws. *)
Definition jwks_claims_ok (payload : JsValue) : bool :=
  match prop payload "sub", prop payload "email", prop payload "alias" with
  | Some sub, Some em, Some al => is_string sub && truthy em && truthy al
  | _, _, _ => false
  end.

Definition secret_claims_ok (decodedPayload : JsValue) : bool :=
  match prop decodedPayload "sub" with
  | Some sub => is_string sub
  | None => false
  end.

(** The token reaches the library and is turned down: by the library, for
    whatever reason, or by the gate because the payload fails its check of
    the claims (one is missing, [sub] is not a string, [email] or [alias] is
    falsy). *)
Inductive Rejected (claims_ok : JsValue → bool)
    (verify : string → VerifyFailure + JsValue) (token : string) : Prop :=
| rejected_by_library (why : VerifyFailure) :
    verify token = inl why → Rejected claims_ok verify token
| rejected_claims (payload : JsValue) :
    verify token = inr payload → claims_ok payload = false →
    Rejected claims_ok verify token.

(** A run of either gate on a request whose token fails verification. *)
Inductive FailedVerification : (St → Outcome unit * St) → Prop :=
| failed_jwks E h token next :
    presents h token → token ≠ EmptyString →
    Rejected jwks_claims_ok (jwtVerify E) token →
    FailedVerification (createAuthMiddleware E h next)
| failed_secret E config h token next :
    presents h token →
    truthy (SecretConfig.jwtSecret config) = true →
    Rejected secret_claims_ok
      (fun t => jwt_verify E t (SecretConfig.jwtSecret config)) token →
    FailedVerification (SecretAuth.authMiddleware E config h next).

Definition metadata_hs256 : JsValue :=
  JObj [("id_token_signing_alg_values_supported", JArr [JStr "HS256"]);
        ("jwks_uri", JStr "https://id.example.com/jwks")].

Definition env_hs256 : Env :=
  {| jwtVerify := Sample.verify;
     jwt_verify := fun token _ => Sample.verify token;
     provider := Sample.lookup;
     metadata_endpoint := Responded 200 metadata_hs256;
     store_up := true;
     valid_url := is_string |}.

Definition count (p : Event → bool) (evs : list Event) : nat :=
  List.length (List.filter p evs).

Definition sent_status (s : St) : option Z := status <$> res s.

(** How a handler [run], whose look-up goes to [url] with [headers], answers
    when the look-up or the write fails; and that it calls the provider and
    the store at most once each. *)
Definition failure_mapping (E : Env) (url : LookupUrl)
    (headers : list (string * JsValue)) (run : M unit) : Prop :=
  ∀ s,
    (∀ data, provider E url headers = Responded 404 data →
       sent_status (snd (run s)) = Some 404)
    ∧ (∀ code data, provider E url headers = Responded code data →
         ¬ (200 ≤ code < 300)%Z → code ≠ 404 →
         sent_status (snd (run s)) = Some 500)
    ∧ (provider E url headers = NetworkFailure →
         sent_status (snd (run s)) = Some 500)
    ∧ (∀ code data, provider E url headers = Responded code data →
         (200 ≤ code < 300)%Z → store_up E = false →
         sent_status (snd (run s)) = Some 500)
    ∧ ∃ evs, trace (snd (run s)) = trace s ++ evs
             ∧ (count is_lookup evs ≤ 1)%nat ∧ (count is_write evs ≤ 1)%nat.

(** A stored document has exactly the three fields, and its [userId] is the
    id it is stored under. *)
Definition doc_ok (cid : string) (d : Doc) : Prop :=
  map fst d = ["alias"; "email"; "userId"] ∧ assoc "userId" d = JStr cid.

Definition store_inv (d : Db) : Prop :=
  ∀ collectionPath key data,
    Firestore.docs d collectionPath !! key = Some data → doc_ok key data.

(** The stores the service can build: the empty one, and what a call of
    [addContactToAddressBook] leaves of such a store. *)
Inductive Reachable : Db → Prop :=
  | reach_empty : Reachable ∅
  | reach_add (E : Env) (ownerId contactToAdd : JsValue) (s : St) :
      Reachable (db s) →
      Reachable (db (snd (addContactToAddressBook E ownerId contactToAdd s))).

(** A stored document has exactly the three fields, and its [userId] is a
    string whose last segment is the id the document is stored under. *)
Definition doc_keyed (key : string) (d : Doc) : Prop :=
  map fst d = ["alias"; "email"; "userId"]
  ∧ ∃ raw, assoc "userId" d = JStr raw
           ∧ List.last (Firestore.split raw) EmptyString = key.

Definition penv_no_port : gmap string string :=
  {[ "GCP_PROJECT_ID" := "proj";
     "IDENTITY_SERVICE_URL" := "https://id.example.com";
     "INTERNAL_API_KEY" := "k" ]}.

(** An id that is one path segment: not empty, no slash. *)
Definition valid_doc_id (s : string) : Prop :=
  s ≠ EmptyString ∧ string_includes "/" s = false.

(** The store is [d] and the run made no provider or store call. *)
Definition store_untouched (d : Db) (s : St) : Prop :=
  db s = d ∧ ∀ ev, ev ∈ trace s →
             is_lookup ev = false ∧ is_write ev = false ∧ is_read ev = false.



(** The value of the metadata field passes the algorithm check. *)
Definition algorithms_okb (v : JsValue) : bool :=
  match v with
  | JArr xs => array_includes xs "RS256"
  | JStr str => string_includes "RS256" str
  | _ => false
  end.

(** The same, spelled out: an array holding the string RS256, or a string
    with RS256 inside. *)
Definition algorithms_ok (v : JsValue) : Prop :=
  (∃ xs, v = JArr xs ∧ JStr "RS256" ∈ xs)
  ∨ (∃ str, v = JStr str ∧ string_includes "RS256" str = true).


(** The environment variable is set to a non-empty string. *)
Definition present (penv : gmap string string) (name value : string) : Prop :=
  penv !! name = Some value ∧ value ≠ EmptyString.

(** [process.env.PORT || 3001] *)
Definition port_of (penv : gmap string string) : JsValue :=
  match penv !! "PORT" with
  | Some p => if String.eqb p EmptyString then JNum 3001 else JStr p
  | None => JNum 3001
  end.

(** An environment of the shared-secret generation. *)
Definition penv_secret : gmap string string :=
  {[ "GCP_PROJECT_ID" := "proj";
     "JWT_SECRET" := "s3cret";
     "IDENTITY_SERVICE_URL" := "https://id.example.com" ]}.

(* ===================================================================== *)
(** * Proofs *)
(* ===================================================================== *)

Create HintDb monad_ops.
#[local] Hint Unfold bind ret throw try_catch emit send set_user get_user get_db
  put_db read_prop call_async library_result axios_result user_id : monad_ops.

(** Case analysis on the innermost scrutinee of a [match]. *)
Ltac mstep :=
  match goal with
  | H : context [match ?x with _ => _ end] |- _ =>
      lazymatch x with
      | context [match _ with _ => _ end] => fail
      | _ => destruct x eqn:?
      end
  | |- context [match ?x with _ => _ end] =>
      lazymatch x with
      | context [match _ with _ => _ end] => fail
      | _ => destruct x eqn:?
      end
  end.

Ltac pair_inv :=
  repeat match goal with
  | H : (_, _) = (_, _) |- _ => inversion H; clear H; subst
  end.

Ltac crunch := repeat (mstep; simpl in *; try discriminate); pair_inv.

(** ** Strings and arrays *)

Lemma prefix_split (p s : string) :
  String.prefix p s = true → ∃ t, s = p +:+ t.
Proof.
  revert s. induction p as [|c p IH]; intros s H.
  - exists s. reflexivity.
  - destruct s as [|c' s]; simpl in H; [discriminate|].
    destruct (Ascii.ascii_dec c c') as [->|]; [|discriminate].
    destruct (IH s H) as [t ->]. exists t. reflexivity.
Qed.

Lemma array_includes_elem (xs : list JsValue) (a : string) :
  array_includes xs a = true ↔ JStr a ∈ xs.
Proof.
  unfold array_includes. induction xs as [|v xs IH]; simpl.
  - split; [discriminate|]. intros H. inversion H.
  - rewrite orb_true_iff, IH, elem_of_cons. split.
    + intros [H|H]; [left|right; exact H].
      destruct v; try discriminate. apply String.eqb_eq in H. congruence.
    + intros [H|H]; [left|right; exact H].
      rewrite <- H. apply String.eqb_refl.
Qed.

(** ** The store *)

Arguments address_book : simpl never.
Arguments Firestore.doc : simpl never.
Arguments Firestore.collection : simpl never.

Lemma includes_char_cons (a c : ascii) (h : string) :
  string_includes (String a EmptyString) (String c h)
  = (if Ascii.ascii_dec a c then true else false)
    || string_includes (String a EmptyString) h.
Proof.
  cbn [string_includes String.prefix].
  destruct (Ascii.ascii_dec a c); [|reflexivity]. by destruct h.
Qed.

Lemma no_slash_one_segment (s : string) :
  string_includes "/" s = false → split_on "/"%char s = [s].
Proof.
  induction s as [|c s IH]; [done|].
  rewrite includes_char_cons. intros H. apply orb_false_iff in H as [Hc Hs].
  cbn [split_on]. destruct (Ascii.eqb_spec c "/"%char) as [->|_].
  - by destruct (Ascii.ascii_dec "/" "/").
  - by rewrite (IH Hs).
Qed.

Lemma no_slash_no_double_slash (s : string) :
  string_includes "/" s = false → string_includes "//" s = false.
Proof.
  induction s as [|c s IH]; [done|].
  rewrite includes_char_cons. intros H. apply orb_false_iff in H as [Hc Hs].
  cbn [string_includes String.prefix].
  destruct (Ascii.ascii_dec "/" c); [discriminate|]. simpl. by apply IH.
Qed.

Lemma split_plain (s : string) : valid_doc_id s → Firestore.split s = [s].
Proof.
  intros [Hne Hsl]. unfold Firestore.split. rewrite (no_slash_one_segment s Hsl).
  simpl. by destruct (String.eqb_spec s EmptyString).
Qed.

Lemma doc_plain (collectionPath : list string) (s : string) :
  valid_doc_id s → Nat.odd (length collectionPath) = true →
  Firestore.doc collectionPath (JStr s) = Ok (collectionPath ++ [s]).
Proof.
  intros Hv Hodd. pose proof (split_plain s Hv) as Hs. destruct Hv as [Hne Hsl].
  unfold Firestore.doc, Firestore.validateResourcePath, Firestore.append,
    Firestore.isDocument.
  destruct (String.eqb_spec s EmptyString) as [|_]; [done|].
  rewrite (no_slash_no_double_slash s Hsl), Hs.
  rewrite length_app. simpl. rewrite Nat.add_1_r, Nat.even_succ, Hodd.
  by destruct (length collectionPath).
Qed.

Lemma address_book_plain (owner : string) :
  valid_doc_id owner → address_book (JStr owner) = Ok (book_of owner).
Proof.
  intros Hv. unfold address_book.
  assert (Hc : Firestore.collection [] (JStr "authorized_users")
               = Ok ["authorized_users"]) by reflexivity.
  rewrite Hc, (doc_plain ["authorized_users"] owner Hv eq_refl). reflexivity.
Qed.

(** A document reference comes from a string, and is the collection path
    followed by the segments of that string. *)
Lemma doc_ok_inv (collectionPath path : list string) (v : JsValue) :
  Firestore.doc collectionPath v = Ok path →
  ∃ raw, v = JStr raw ∧ raw ≠ EmptyString ∧ string_includes "//" raw = false
         ∧ path = collectionPath ++ Firestore.split raw
         ∧ Firestore.isDocument path = true.
Proof.
  unfold Firestore.doc, Firestore.validateResourcePath, Firestore.append.
  destruct v as [| | | |raw| |]; try discriminate.
  destruct (String.eqb_spec raw EmptyString) as [|Hne]; [discriminate|].
  destruct (string_includes "//" raw) eqn:Hd; [discriminate|].
  destruct (Firestore.isDocument (collectionPath ++ Firestore.split raw)) eqn:Hdoc;
    [|discriminate].
  intros [= <-]. exists raw. auto.
Qed.

Lemma docs_written d book key data :
  Firestore.docs (written d book key data) book = <[key := data]> (Firestore.docs d book).
Proof. unfold Firestore.docs, written. by rewrite lookup_insert_eq. Qed.

Lemma docs_written_ne d book book' key data :
  book ≠ book' →
  Firestore.docs (written d book key data) book' = Firestore.docs d book'.
Proof. intros Hne. unfold Firestore.docs, written. by rewrite lookup_insert_ne. Qed.

Lemma written_written d book key data data' :
  written (written d book key data) book key data' = written d book key data'.
Proof.
  unfold written at 1. rewrite docs_written. unfold written.
  by rewrite !insert_insert_eq.
Qed.

Lemma add_ok E ownerV c s s' :
  addContactToAddressBook E ownerV c s = (Ok tt, s') →
  ∃ book raw path a e,
    address_book ownerV = Ok book ∧ prop c "id" = Some (JStr raw)
    ∧ Firestore.doc book (JStr raw) = Ok path
    ∧ prop c "alias" = Some a ∧ prop c "email" = Some e
    ∧ store_up E = true ∧ has_undefined (JObj (doc_of raw a e)) = false
    ∧ s' = mkSt (written (db s) (Firestore.parent path) (Firestore.id path)
                   (doc_of raw a e))
                (res s) (user s)
                (trace s ++ [EvStoreWrite ownerV (JStr raw) (JObj (doc_of raw a e))]).
Proof.
  unfold addContactToAddressBook, Firestore.set, lift.
  autounfold with monad_ops. intros H. crunch.
  match goal with Hd : Firestore.doc _ _ = Ok _ |- _ =>
    destruct (doc_ok_inv _ _ _ Hd) as (raw & -> & _) end.
  eexists _, raw, _, _, _. repeat split; try reflexivity; try eassumption.
Qed.

Lemma add_throw E ownerV c s e s' :
  addContactToAddressBook E ownerV c s = (Throw e, s') →
  db s' = db s ∧ res s' = res s ∧ user s' = user s ∧ is_axios_404 e = false ∧
  (trace s' = trace s ∨
   ∃ ev, is_write ev = true ∧ trace s' = trace s ++ [ev]).
Proof.
  unfold addContactToAddressBook, Firestore.set, lift.
  autounfold with monad_ops. intros H.
  assert (Hstore : ∀ b v e0, Firestore.doc b v = Throw e0 → is_axios_404 e0 = false).
  { intros b v e0. unfold Firestore.doc, Firestore.validateResourcePath.
    repeat (mstep; try discriminate); intros [= <-]; reflexivity. }
  assert (Hbook : ∀ v e0, address_book v = Throw e0 → is_axios_404 e0 = false).
  { intros v e0. unfold address_book, Firestore.collection,
      Firestore.validateResourcePath. simpl.
    destruct (Firestore.doc _ v) eqn:Hd; [|intros [= <-]; by eapply Hstore].
    repeat (mstep; try discriminate); intros [= <-]; reflexivity. }
  crunch; simpl; repeat split; eauto;
    try (right; eexists; split; [|reflexivity]; done).
Qed.

(** Whether a write succeeds, and what it writes, does not depend on the
    state it starts from. *)
Lemma add_ok_elsewhere E ownerV c s s' t :
  addContactToAddressBook E ownerV c s = (Ok tt, s') →
  ∃ t', addContactToAddressBook E ownerV c t = (Ok tt, t').
Proof.
  unfold addContactToAddressBook, Firestore.set, lift.
  autounfold with monad_ops. intros H. crunch. eauto.
Qed.

Lemma get_ok E uid s l s' :
  getUserAddressBook E uid s = (Ok l, s') →
  ∃ book,
    address_book uid = Ok book ∧ store_up E = true ∧
    l = map doc_to_contact (map snd (map_to_list (Firestore.docs (db s) book))) ∧
    s' = mkSt (db s) (res s) (user s) (trace s ++ [EvStoreRead uid]).
Proof.
  unfold getUserAddressBook, Firestore.get, lift.
  autounfold with monad_ops. intros H. crunch.
  all: eexists; repeat split; try reflexivity.
  all: match goal with Hd : map snd _ = _ |- _ => by rewrite Hd end.
Qed.

Lemma get_throw E uid s e s' :
  getUserAddressBook E uid s = (Throw e, s') →
  db s' = db s ∧ res s' = res s ∧ user s' = user s.
Proof.
  unfold getUserAddressBook, Firestore.get, lift.
  autounfold with monad_ops. intros H. crunch; auto.
Qed.

Lemma get_runs E uid book s :
  address_book uid = Ok book → store_up E = true →
  getUserAddressBook E uid s
  = (Ok (map doc_to_contact (map snd (map_to_list (Firestore.docs (db s) book)))),
     mkSt (db s) (res s) (user s) (trace s ++ [EvStoreRead uid])).
Proof.
  intros Hb Hup.
  unfold getUserAddressBook, Firestore.get, lift.
  autounfold with monad_ops. rewrite Hb, Hup. simpl.
  by destruct (map snd _).
Qed.

Lemma list_last_app {A} (l1 l2 : list A) (d : A) :
  l2 ≠ [] → List.last (l1 ++ l2) d = List.last l2 d.
Proof.
  intros Hne. induction l1 as [|x l1 IH]; [done|].
  cbn [app List.last]. rewrite IH.
  destruct (l1 ++ l2) eqn:Happ; [|done].
  apply app_eq_nil in Happ as [_ ->]. done.
Qed.

Lemma odd_even (n : nat) : Nat.odd n = negb (Nat.even n).
Proof. reflexivity. Qed.

(** The address book of a user id: the id is a string that splits into an
    odd number of segments. *)
Lemma address_book_ok_inv (v : JsValue) (book : list string) :
  address_book v = Ok book →
  ∃ raw, v = JStr raw ∧ raw ≠ EmptyString ∧ string_includes "//" raw = false
         ∧ Nat.odd (length (Firestore.split raw)) = true
         ∧ book = "authorized_users" :: Firestore.split raw ++ ["address_book"].
Proof.
  unfold address_book.
  assert (Hc : Firestore.collection [] (JStr "authorized_users")
               = Ok ["authorized_users"]) by reflexivity.
  rewrite Hc.
  destruct (Firestore.doc ["authorized_users"] v) as [user|] eqn:Hd; [|discriminate].
  apply doc_ok_inv in Hd as (raw & -> & Hne & Hds & -> & Hdoc).
  unfold Firestore.collection, Firestore.validateResourcePath, Firestore.append.
  assert (Hs : Firestore.split "address_book" = ["address_book"]) by reflexivity.
  assert (Hi : string_includes "//" "address_book" = false) by reflexivity.
  cbn [String.eqb Ascii.eqb Bool.eqb]. rewrite Hi, Hs.
  destruct (Firestore.isCollection _) eqn:Hcol; [|discriminate].
  intros [= <-]. exists raw. repeat split; auto.
  unfold Firestore.isDocument in Hdoc. cbn [app length] in Hdoc.
  apply andb_true_iff in Hdoc as [_ Hev]. rewrite odd_even.
  rewrite Nat.even_succ in Hev. rewrite odd_even in Hev.
  by destruct (Nat.even (length (Firestore.split raw))).
Qed.

Lemma address_book_odd (v : JsValue) (book : list string) :
  address_book v = Ok book → Nat.odd (length book) = true.
Proof.
  intros H. apply address_book_ok_inv in H as (raw & _ & _ & _ & Hodd & ->).
  cbn [length]. rewrite length_app. cbn [length].
  rewrite Nat.add_1_r, Nat.odd_succ, Nat.even_succ. exact Hodd.
Qed.


(** A document reference taken in a collection: the id is a string that
    splits into an odd number of segments; all but the last name the
    collection of the document, below the given one, and the last is the id
    of the document. *)
Lemma doc_in_collection (book path : list string) (v : JsValue) :
  Nat.odd (length book) = true →
  Firestore.doc book v = Ok path →
  ∃ raw, v = JStr raw ∧ raw ≠ EmptyString ∧ string_includes "//" raw = false
         ∧ Nat.odd (length (Firestore.split raw)) = true
         ∧ Firestore.parent path = book ++ removelast (Firestore.split raw)
         ∧ Firestore.id path = List.last (Firestore.split raw) EmptyString.
Proof.
  intros Hodd Hd.
  apply doc_ok_inv in Hd as (raw & -> & Hne & Hds & -> & Hdoc).
  exists raw.
  assert (Hsegs : Nat.odd (length (Firestore.split raw)) = true).
  { unfold Firestore.isDocument in Hdoc. apply andb_true_iff in Hdoc as [_ Hev].
    rewrite length_app, Nat.even_add in Hev. rewrite odd_even in Hodd |- *.
    destruct (Nat.even (length book)); [discriminate|].
    by destruct (Nat.even (length (Firestore.split raw))). }
  assert (Hnil : Firestore.split raw ≠ []).
  { intros Hnil. rewrite Hnil in Hsegs. discriminate. }
  repeat split; auto.
  - unfold Firestore.parent. by apply removelast_app.
  - unfold Firestore.id. by apply list_last_app.
Qed.


(** What a successful write reports, in terms of the two ids. *)
Lemma add_ok_segments E ownerV c s s' :
  addContactToAddressBook E ownerV c s = (Ok tt, s') →
  ∃ book raw a e,
    address_book ownerV = Ok book ∧ prop c "id" = Some (JStr raw)
    ∧ Nat.odd (length (Firestore.split raw)) = true
    ∧ prop c "alias" = Some a ∧ prop c "email" = Some e
    ∧ db s' = written (db s) (book ++ removelast (Firestore.split raw))
                (List.last (Firestore.split raw) EmptyString) (doc_of raw a e).
Proof.
  intros H.
  apply add_ok in H as (book & raw & path & a & e & Hb & Hc & Hp & Ha & He & _ & _ & ->).
  pose proof (address_book_odd _ _ Hb) as Hodd.
  apply (doc_in_collection _ _ _ Hodd) in Hp
    as (raw' & [= <-] & _ & _ & Hsegs & -> & ->).
  exists book, raw, a, e. auto 10.
Qed.

(* ===================================================================== *)
(** ** Re-adding a contact *)
(* ===================================================================== *)

(** C5. Adding a contact for an owner and then adding a contact with the
    same id for the same owner, when that second write succeeds, leaves the
    store as the second add alone would: the collection of the document is
    the original one with the single document of that id replaced by the
    latest field values. *)
Theorem C5_add_twice_keeps_latest (E1 E2 : Env) (ownerId c c' : JsValue) (s : St) :
  prop c' "id" = prop c "id" →
  fst (addContactToAddressBook E2 ownerId c'
         (snd (addContactToAddressBook E1 ownerId c s))) = Ok tt →
  db (snd (addContactToAddressBook E2 ownerId c'
             (snd (addContactToAddressBook E1 ownerId c s))))
  = db (snd (addContactToAddressBook E2 ownerId c' s))
  ∧ ∃ book raw path a e,
      address_book ownerId = Ok book ∧ prop c' "id" = Some (JStr raw) ∧
      Firestore.doc book (JStr raw) = Ok path ∧
      prop c' "alias" = Some a ∧ prop c' "email" = Some e ∧
      Firestore.docs
        (db (snd (addContactToAddressBook E2 ownerId c'
                    (snd (addContactToAddressBook E1 ownerId c s)))))
        (Firestore.parent path)
      = <[Firestore.id path := doc_of raw a e]>
          (Firestore.docs (db s) (Firestore.parent path)).
Proof.
  intros Hid Hok.
  destruct (addContactToAddressBook E1 ownerId c s) as [o1 s1] eqn:H1.
  cbn [snd] in *.
  destruct (addContactToAddressBook E2 ownerId c' s1) as [o2 s2] eqn:H2.
  cbn [fst snd] in *. subst o2.
  destruct (add_ok_elsewhere _ _ _ _ _ s H2) as [t' Ht].
  rewrite Ht. simpl.
  apply add_ok in H2 as (book & raw & path & a & e & Hb & Hc & Hp & Ha & He & _ & _ & ->).
  apply add_ok in Ht
    as (book' & raw' & path' & a' & e' & Hb' & Hc' & Hp' & Ha' & He' & _ & _ & ->).
  rewrite Hc in Hc'. injection Hc' as <-.
  rewrite Hb in Hb'. injection Hb' as <-.
  rewrite Hp in Hp'. injection Hp' as <-.
  rewrite Ha in Ha'. injection Ha' as <-.
  rewrite He in He'. injection He' as <-.
  simpl.
  assert (Hdb : written (db s1) (Firestore.parent path) (Firestore.id path)
                  (doc_of raw a e)
                = written (db s) (Firestore.parent path) (Firestore.id path)
                    (doc_of raw a e)).
  { destruct o1 as [[]|err].
    - apply add_ok in H1
        as (book1 & raw1 & path1 & a1 & e1 & Hb1 & Hc1 & Hp1 & _ & _ & _ & _ & ->).
      rewrite Hc, Hc1 in Hid. injection Hid as ->.
      rewrite Hb in Hb1. injection Hb1 as <-.
      rewrite Hp in Hp1. injection Hp1 as <-.
      simpl. apply written_written.
    - apply add_throw in H1 as (-> & _). reflexivity. }
  split; [exact Hdb|].
  exists book, raw, path, a, e. repeat split; try assumption.
  rewrite Hdb. apply docs_written.
Qed.

Lemma C5_add_twice_keeps_latest_witness :
  let add := addContactToAddressBook Sample.env (JStr "u1") in
  let c := Sample.contact_a in
  let c' := Sample.contact_a_renamed in
  prop c' "id" = prop c "id"
  ∧ fst (add c' (snd (add c (fresh ∅)))) = Ok tt
  ∧ db (snd (add c' (snd (add c (fresh ∅))))) = db (snd (add c' (fresh ∅)))
  ∧ ∃ book raw path a e,
      address_book (JStr "u1") = Ok book ∧ prop c' "id" = Some (JStr raw) ∧
      Firestore.doc book (JStr raw) = Ok path ∧
      prop c' "alias" = Some a ∧ prop c' "email" = Some e ∧
      Firestore.docs (db (snd (add c' (snd (add c (fresh ∅))))))
        (Firestore.parent path)
      = <[Firestore.id path := doc_of raw a e]>
          (Firestore.docs (db (fresh ∅)) (Firestore.parent path)).
Proof.
  intros add c c'.
  split; [reflexivity|]. split; [reflexivity|].
  apply (C5_add_twice_keeps_latest Sample.env Sample.env (JStr "u1") c c' (fresh ∅));
    reflexivity.
Defined.

(** The second write fails, because the store does not answer or because
    the second record has no alias: the document of the first write stays,
    which the second call alone would not have left. *)
Lemma C5_counterexample :
  let c := Sample.contact_a in
  let c' := Sample.contact_a_renamed in
  let c'' := JObj [("id", JStr "u2"); ("email", JStr "a@new.example")] in
  (prop c' "id" = prop c "id"
   ∧ db (snd (addContactToAddressBook Sample.env_store_down (JStr "u1") c'
                (snd (addContactToAddressBook Sample.env (JStr "u1") c (fresh ∅)))))
     ≠ db (snd (addContactToAddressBook Sample.env_store_down (JStr "u1") c' (fresh ∅))))
  ∧ (prop c'' "id" = prop c "id"
     ∧ db (snd (addContactToAddressBook Sample.env (JStr "u1") c''
                  (snd (addContactToAddressBook Sample.env (JStr "u1") c (fresh ∅)))))
       ≠ db (snd (addContactToAddressBook Sample.env (JStr "u1") c'' (fresh ∅)))).
Proof.
  intros c c' c''. split; (split; [reflexivity|]).
  all: intros H;
    apply (f_equal (fun d => Firestore.docs d (book_of "u1") !! "u2")) in H;
    vm_compute in H; discriminate.
Qed.

(* ===================================================================== *)
(** ** The auth gate *)
(* ===================================================================== *)

Lemma call_async_keeps_user (next : M unit) (s : St) :
  (∀ t, user (snd (next t)) = user t) →
  user (snd (call_async next s)) = user s.
Proof.
  intros Hn. unfold call_async. specialize (Hn s).
  destruct (next s) as [[|] s']; exact Hn.
Qed.

(** The JWKS gate answers 401 and does nothing else (no verifier call, no
    handler, no store or provider call, no change of state) when the header
    is absent, lacks the prefix, or yields an empty token. *)
Lemma jwks_gate_rejects_before_verifying (E : Env) (h : option string)
    (next : M unit) (s : St) :
  (h = None
   ∨ ∃ hd, h = Some hd
           ∧ (String.prefix "Bearer " hd = false
              ∨ bearer_token hd = None
              ∨ bearer_token hd = Some EmptyString)) →
  ∃ b, createAuthMiddleware E h next s
       = (Ok tt, mkSt (db s) (Some (mkResponse 401 b)) (user s) (trace s)).
Proof.
  intros [->|(hd & -> & H)].
  - eexists. reflexivity.
  - unfold createAuthMiddleware, no_bearer. simpl.
    destruct (negb (negb (hd =? EmptyString)%string)) eqn:He; simpl;
      [eexists; reflexivity|].
    destruct (String.prefix "Bearer " hd) eqn:Hp; simpl; [|eexists; reflexivity].
    destruct H as [H|[H|H]]; [discriminate| |]; rewrite H; simpl;
      eexists; reflexivity.
Qed.

Lemma not_well_formed_cases (hd : string) :
  ¬ well_formed_bearer hd →
  String.prefix "Bearer " hd = false ∨ bearer_token hd = Some EmptyString.
Proof.
  intros Hwf. destruct (String.prefix "Bearer " hd) eqn:Hp; [right|by left].
  apply prefix_split in Hp as [t ->].
  destruct t as [|c t]; [reflexivity|].
  exfalso. apply Hwf. exists (String c t). split; [discriminate|reflexivity].
Qed.

(** The same for every header that is not the prefix followed by a
    non-empty token. *)
Lemma jwks_gate_rejects_malformed (E : Env) (h : option string)
    (next : M unit) (s : St) :
  (h = None ∨ ∃ hd, h = Some hd ∧ ¬ well_formed_bearer hd) →
  ∃ b, createAuthMiddleware E h next s
       = (Ok tt, mkSt (db s) (Some (mkResponse 401 b)) (user s) (trace s)).
Proof.
  intros [->|(hd & -> & Hwf)]; apply jwks_gate_rejects_before_verifying;
    [by left|right].
  exists hd. split; [done|].
  destruct (not_well_formed_cases hd Hwf) as [H|H]; auto.
Qed.

(** C2, the shared-secret gate at a header whose token is empty: the token
    library is called, with the empty string. (The JWKS gate is covered by
    [jwks_gate_rejects_malformed].) *)
Theorem C2_secret_gate_verifies_empty_token (E : Env) :
  (∃ rest, trace (snd (SecretAuth.authMiddleware E Sample.secret_config
                         (Some "Bearer ") (ret tt) (fresh ∅)))
           = EvVerify EmptyString :: rest)
  ∧ (∃ rest, trace (snd (SecretAuth.authMiddleware E Sample.secret_config
                           (Some "Bearer  x") (ret tt) (fresh ∅)))
             = EvVerify EmptyString :: rest).
Proof.
  split; unfold SecretAuth.authMiddleware; simpl; autounfold with monad_ops; simpl.
  all: destruct (jwt_verify E EmptyString (JStr "s3cret")) as [why|payload];
    simpl; [eexists; reflexivity|].
  all: crunch; simpl; eexists; reflexivity.
Qed.

(** An identity on the request after a gate ran comes from a token the
    library accepted and a payload that passed the gate's checks. *)
Lemma identity_inversion (E : Env) (config : SecretConfig.Config)
    (h : option string) (next : M unit) (s : St) (c : Contact) :
  (∀ t, user (snd (next t)) = user t) →
  user s = None →
  (user (snd (createAuthMiddleware E h next s)) = Some c →
   ∃ token payload,
     presents h token ∧ jwtVerify E token = inr payload
     ∧ prop payload "sub" = Some (id c) ∧ is_string (id c) = true
     ∧ prop payload "email" = Some (email c) ∧ truthy (email c) = true
     ∧ prop payload "alias" = Some (alias c) ∧ truthy (alias c) = true)
  ∧
  (user (snd (SecretAuth.authMiddleware E config h next s)) = Some c →
   ∃ token payload,
     presents h token
     ∧ jwt_verify E token (SecretConfig.jwtSecret config) = inr payload
     ∧ prop payload "sub" = Some (id c) ∧ is_string (id c) = true).
Proof.
  intros Hnext Hnone. split.
  - unfold createAuthMiddleware, no_bearer.
    destruct h as [hd|]; simpl; [|congruence].
    destruct (negb (negb (hd =? EmptyString)%string)); simpl; [congruence|].
    destruct (String.prefix "Bearer " hd) eqn:Hp; simpl; [|congruence].
    destruct (bearer_token hd) as [token|] eqn:Ht; simpl; [|congruence].
    destruct (negb (negb (token =? EmptyString)%string)); simpl; [congruence|].
    unfold try_catch, bind, emit, library_result, read_prop, ret, throw, set_user, send.
    destruct (jwtVerify E token) as [why|payload] eqn:Hv; simpl; [congruence|].
    destruct (prop payload "sub") as [sub|] eqn:Hs; simpl; [|congruence].
    destruct (prop payload "email") as [em|] eqn:He; simpl; [|congruence].
    destruct (prop payload "alias") as [al|] eqn:Ha; simpl; [|congruence].
    destruct (is_string sub) eqn:Hss; simpl; [|congruence].
    destruct (truthy em) eqn:Hte; simpl; [|congruence].
    destruct (truthy al) eqn:Hta; simpl; [|congruence].
    match goal with |- context [call_async next ?st] =>
      pose proof (call_async_keeps_user next st Hnext) as Hk;
      destruct (call_async next st) as [[[]|e] s'] end;
      simpl in *; rewrite Hk; intros [= <-]; simpl;
      (exists token, payload; repeat split; try assumption;
       exists hd; repeat split; assumption).
  - unfold SecretAuth.authMiddleware, no_bearer.
    destruct h as [hd|]; simpl; [|congruence].
    destruct (negb (negb (hd =? EmptyString)%string)); simpl; [congruence|].
    destruct (String.prefix "Bearer " hd) eqn:Hp; simpl; [|congruence].
    destruct (bearer_token hd) as [token|] eqn:Ht; simpl; [|congruence].
    assert (Hgoal : ∀ secret,
      SecretConfig.jwtSecret config = secret →
      user (snd (try_catch
        (emit (EvVerify token);;
         let* decodedPayload := library_result (jwt_verify E token secret) in
         let* sub := read_prop decodedPayload "sub" in
         if negb (is_string sub) then throw (JsError msg_bad_sub)
         else
           let* em := read_prop decodedPayload "email" in
           let* al := read_prop decodedPayload "alias" in
           set_user {| id := sub; email := em; alias := al |};; call_async next)
        (fun error =>
           emit (EvLog "JWT validation error:" (Some error));;
           send 401 (error_body "Unauthorized: Invalid or expired token.")) s))
      = Some c →
      ∃ token0 payload, presents (Some hd) token0
        ∧ jwt_verify E token0 secret = inr payload
        ∧ prop payload "sub" = Some (id c) ∧ is_string (id c) = true).
    { intros secret _.
      unfold try_catch, bind, emit, library_result, read_prop, ret, throw, set_user, send.
      destruct (jwt_verify E token secret) as [why|payload] eqn:Hv; simpl; [congruence|].
      destruct (prop payload "sub") as [sub|] eqn:Hs; simpl; [|congruence].
      destruct (is_string sub) eqn:Hss; simpl; [|congruence].
      destruct (prop payload "email") as [em|] eqn:He; simpl; [|congruence].
      destruct (prop payload "alias") as [al|] eqn:Ha; simpl; [|congruence].
      match goal with |- context [call_async next ?st] =>
        pose proof (call_async_keeps_user next st Hnext) as Hk;
        destruct (call_async next st) as [[[]|e] s'] end;
        simpl in *; rewrite Hk; intros [= <-]; simpl;
        (exists token, payload; repeat split; try assumption;
         exists hd; repeat split; assumption). }
    destruct (SecretConfig.jwtSecret config) eqn:Hsec;
      try (apply Hgoal; reflexivity); unfold throw; cbn [snd user]; congruence.
Qed.

Lemma presents_functional h t1 t2 : presents h t1 → presents h t2 → t1 = t2.
Proof. intros (hd & -> & _ & H1) (hd' & [= <-] & _ & H2). congruence. Qed.

(** C1. An identity is attached to the request only for a token the library
    accepted and whose payload passed the gate's own checks: in the JWKS
    gate a string [sub] and a truthy [email] and [alias] (presence, not
    type); in the shared-secret gate a string [sub]. In particular, in
    either gate a token whose payload has no [sub] yields no identity. *)
Theorem C1_identity_needs_checked_claims (E : Env) (config : SecretConfig.Config)
    (h : option string) (next : M unit) (s : St) :
  (∀ t, user (snd (next t)) = user t) →
  user s = None →
  (∀ c, user (snd (createAuthMiddleware E h next s)) = Some c →
   ∃ token payload,
     presents h token ∧ jwtVerify E token = inr payload
     ∧ prop payload "sub" = Some (id c) ∧ is_string (id c) = true
     ∧ prop payload "email" = Some (email c) ∧ truthy (email c) = true
     ∧ prop payload "alias" = Some (alias c) ∧ truthy (alias c) = true)
  ∧ (∀ c, user (snd (SecretAuth.authMiddleware E config h next s)) = Some c →
     ∃ token payload,
       presents h token
       ∧ jwt_verify E token (SecretConfig.jwtSecret config) = inr payload
       ∧ prop payload "sub" = Some (id c) ∧ is_string (id c) = true)
  ∧ (∀ token payload,
       presents h token → jwtVerify E token = inr payload →
       prop payload "sub" = Some JUndefined →
       user (snd (createAuthMiddleware E h next s)) = None)
  ∧ (∀ token payload,
       presents h token →
       jwt_verify E token (SecretConfig.jwtSecret config) = inr payload →
       prop payload "sub" = Some JUndefined →
       user (snd (SecretAuth.authMiddleware E config h next s)) = None).
Proof.
  intros Hnext Hnone.
  split; [|split; [|split]].
  - intros c. apply (identity_inversion E config h next s c Hnext Hnone).
  - intros c. apply (identity_inversion E config h next s c Hnext Hnone).
  - intros token payload Hp Hv Hsub.
    destruct (user (snd (createAuthMiddleware E h next s))) as [c|] eqn:Hu; [|done].
    apply (identity_inversion E config h next s c Hnext Hnone) in Hu
      as (token' & payload' & Hp' & Hv' & Hs' & Hstr & _).
    rewrite (presents_functional h token' token Hp' Hp) in Hv'.
    rewrite Hv in Hv'. injection Hv' as <-. rewrite Hsub in Hs'.
    injection Hs' as Hs'. rewrite <- Hs' in Hstr. discriminate.
  - intros token payload Hp Hv Hsub.
    destruct (user (snd (SecretAuth.authMiddleware E config h next s))) as [c|] eqn:Hu;
      [|done].
    apply (identity_inversion E config h next s c Hnext Hnone) in Hu
      as (token' & payload' & Hp' & Hv' & Hs' & Hstr).
    rewrite (presents_functional h token' token Hp' Hp) in Hv'.
    rewrite Hv in Hv'. injection Hv' as <-. rewrite Hsub in Hs'.
    injection Hs' as Hs'. rewrite <- Hs' in Hstr. discriminate.
Qed.

Lemma C1_identity_needs_checked_claims_witness :
  let c := Sample.me in
  let h := Some "Bearer good" in
  (user (snd (createAuthMiddleware Sample.env h (ret tt) (fresh ∅))) = Some c
   ∧ ∃ token payload,
       presents h token ∧ jwtVerify Sample.env token = inr payload
       ∧ prop payload "sub" = Some (id c) ∧ is_string (id c) = true
       ∧ prop payload "email" = Some (email c) ∧ truthy (email c) = true
       ∧ prop payload "alias" = Some (alias c) ∧ truthy (alias c) = true)
  ∧
  (user (snd (SecretAuth.authMiddleware Sample.env Sample.secret_config h (ret tt)
                (fresh ∅))) = Some c
   ∧ ∃ token payload,
       presents h token
       ∧ jwt_verify Sample.env token (SecretConfig.jwtSecret Sample.secret_config)
         = inr payload
       ∧ prop payload "sub" = Some (id c) ∧ is_string (id c) = true)
  ∧
  (jwtVerify Sample.env_no_sub "anon" = inr Sample.payload_no_sub
   ∧ user (snd (createAuthMiddleware Sample.env_no_sub (Some "Bearer anon") (ret tt)
                  (fresh ∅))) = None).
Proof.
  intros c h.
  destruct (C1_identity_needs_checked_claims Sample.env Sample.secret_config h
              (ret tt) (fresh ∅)) as (Hjwks & Hsecret & _);
    [intros t; reflexivity | reflexivity |].
  destruct (C1_identity_needs_checked_claims Sample.env_no_sub Sample.secret_config
              (Some "Bearer anon") (ret tt) (fresh ∅)) as (_ & _ & Hnosub & _);
    [intros t; reflexivity | reflexivity |].
  split; [|split]; (split; [reflexivity|]).
  - apply Hjwks. reflexivity.
  - apply Hsecret. reflexivity.
  - apply (Hnosub "anon" Sample.payload_no_sub); [|reflexivity|reflexivity].
    exists "Bearer anon". repeat split.
Defined.

Lemma C1_counterexample :
  jwtVerify env_email_42 "t" = inr payload_email_42
  ∧ prop payload_email_42 "email" = Some (JNum 42)
  ∧ is_string (JNum 42) = false
  ∧ user (snd (createAuthMiddleware env_email_42 (Some "Bearer t") (ret tt) (fresh ∅)))
    = Some {| id := JStr "u1"; email := JNum 42; alias := JStr "A" |}.
Proof. repeat split. Qed.

(* ===================================================================== *)
(** ** One answer for every rejected token *)
(* ===================================================================== *)

Lemma presents_no_bearer h token : presents h token → no_bearer h = false.
Proof.
  intros (hd & -> & Hp & Ht). unfold no_bearer. rewrite Hp. simpl.
  destruct hd; [discriminate|reflexivity].
Qed.

Lemma failed_verification_401 run s :
  FailedVerification run → res (snd (run s)) = Some generic_401.
Proof.
  intros [E h token next Hp Hne Hrej | E config h token next Hp Hsec Hrej].
  - unfold createAuthMiddleware. rewrite (presents_no_bearer _ _ Hp).
    destruct Hp as (hd & -> & _ & Ht). simpl. rewrite Ht.
    destruct (String.eqb_spec token EmptyString) as [|_]; [done|]. simpl.
    unfold try_catch, bind, emit, library_result, read_prop, ret, throw, set_user, send.
    destruct Hrej as [why Hv | payload Hv Hbad]; rewrite Hv; simpl; [reflexivity|].
    unfold jwks_claims_ok in Hbad.
    destruct (prop payload "sub") as [sub|]; simpl; [|reflexivity].
    destruct (prop payload "email") as [em|]; simpl; [|reflexivity].
    destruct (prop payload "alias") as [al|]; simpl; [|reflexivity].
    destruct (is_string sub), (truthy em), (truthy al); try discriminate; reflexivity.
  - unfold SecretAuth.authMiddleware. rewrite (presents_no_bearer _ _ Hp).
    destruct Hp as (hd & -> & _ & Ht). simpl. rewrite Ht.
    unfold try_catch, bind, emit, library_result, read_prop, ret, throw, set_user, send.
    destruct (SecretConfig.jwtSecret config) eqn:Hs; try discriminate.
    all: destruct Hrej as [why Hv | payload Hv Hbad]; rewrite Hv; simpl;
      [reflexivity|].
    all: unfold secret_claims_ok in Hbad.
    all: destruct (prop payload "sub") as [sub|]; simpl; [|reflexivity].
    all: rewrite Hbad; reflexivity.
Qed.

(** C4. Any two requests whose tokens fail verification (rejected by the
    token library for any reason, or carrying a payload that fails the
    gate's check of the claims), through either gate, get the same response:
    401 with the one generic body. *)
Theorem C4_rejections_look_alike (run1 run2 : St → Outcome unit * St) (s1 s2 : St) :
  FailedVerification run1 → FailedVerification run2 →
  res (snd (run1 s1)) = res (snd (run2 s2))
  ∧ res (snd (run1 s1)) = Some generic_401.
Proof.
  intros H1 H2.
  rewrite (failed_verification_401 run1 s1 H1), (failed_verification_401 run2 s2 H2).
  split; reflexivity.
Qed.

Lemma C4_rejections_look_alike_witness :
  let run1 := createAuthMiddleware Sample.env (Some "Bearer old") (ret tt) in
  let run2 := createAuthMiddleware env_email_0 (Some "Bearer any") (ret tt) in
  FailedVerification run1 ∧ FailedVerification run2
  ∧ res (snd (run1 (fresh ∅))) = res (snd (run2 (fresh ∅)))
  ∧ res (snd (run1 (fresh ∅))) = Some generic_401.
Proof.
  intros run1 run2.
  assert (H1 : FailedVerification run1).
  { apply failed_jwks with (token := "old").
    - exists "Bearer old". repeat split.
    - discriminate.
    - apply rejected_by_library with (why := Expired). reflexivity. }
  assert (H2 : FailedVerification run2).
  { apply failed_jwks with (token := "any").
    - exists "Bearer any". repeat split.
    - discriminate.
    - apply rejected_claims with (payload := payload_email_0); reflexivity. }
  split; [exact H1|]. split; [exact H2|].
  exact (C4_rejections_look_alike run1 run2 (fresh ∅) (fresh ∅) H1 H2).
Defined.

(* ===================================================================== *)
(** ** Start-up *)
(* ===================================================================== *)

Lemma not_serving_no_listen (evs : list Event) :
  (∀ ev, ev ∈ evs → match ev with EvListen _ => False | _ => True end) →
  ¬ ∃ p, EvListen p ∈ evs.
Proof. intros H [p Hp]. exact (H _ Hp). Qed.

(** C3. With the metadata fetched and its algorithm list an array: if the
    list contains RS256 the policy check passes and start-up goes on to the
    store connection check; if it does not, the check throws, the process
    exits with code 1 and [app.listen] is never called. *)
Theorem C3_algorithm_policy (E : Env) (config : Config) (code : Z)
    (metadata : JsValue) (xs : list JsValue) :
  truthy (gcpProjectId config) = true →
  truthy (identityServiceUrl config) = true →
  metadata_endpoint E = Responded code metadata →
  (200 ≤ code < 300)%Z →
  prop metadata "id_token_signing_alg_values_supported" = Some (JArr xs) →
  (JStr "RS256" ∈ xs →
     (∀ s, check_algorithms (JArr xs) s = (Ok tt, s))
     ∧ EvListCollections ∈ trace (snd (startServer E config (fresh ∅))))
  ∧ (JStr "RS256" ∉ xs →
     (∀ s, check_algorithms (JArr xs) s = (Throw (AlgorithmError xs), s))
     ∧ EvExit 1 ∈ trace (snd (startServer E config (fresh ∅)))
     ∧ ¬ serving (snd (startServer E config (fresh ∅)))).
Proof.
  intros Hp Hu Hm Hc Hx.
  assert (H2xx : ((200 <=? code)%Z && (code <? 300)%Z)%bool = true).
  { apply andb_true_iff. split; [apply Z.leb_le|apply Z.ltb_lt]; lia. }
  assert (Hrun : ∀ b, array_includes xs requiredAlg = b →
    startServer E config (fresh ∅)
    = if b then
        try_catch
          (emit EvListCollections;;
           (if store_up E then ret tt else throw (StoreError "unavailable"));;
           let* jwks_uri := read_prop metadata "jwks_uri" in
           (if valid_url E jwks_uri then ret tt else throw (TypeError "Invalid URL"));;
           emit (EvListen (port config)))
          (fun error =>
             emit (EvLog "FATAL: SERVER FAILED TO START" (Some error));;
             emit (EvExit 1))
          (mkSt ∅ None None [EvDiscover (identityServiceUrl config)])
      else
        (Ok tt, mkSt ∅ None None
                  [EvDiscover (identityServiceUrl config);
                   EvLog "FATAL: SERVER FAILED TO START" (Some (AlgorithmError xs));
                   EvExit 1])).
  { intros b Hb. unfold startServer, start_body, check_algorithms, requiredAlg in *.
    rewrite Hp, Hu, Hm. simpl.
    unfold try_catch, bind, emit, axios_result, read_prop, ret, throw. simpl.
    rewrite H2xx, Hx. simpl. rewrite Hb. destruct b; reflexivity. }
  split; intros Hin.
  - apply array_includes_elem in Hin as Hinc.
    split.
    + intros s. unfold check_algorithms, requiredAlg in *. simpl. rewrite Hinc.
      reflexivity.
    + rewrite (Hrun true Hinc).
      unfold try_catch, bind, emit, read_prop, ret, throw. simpl.
      crunch; simpl; rewrite !elem_of_cons; auto.
  - assert (Hinc : array_includes xs requiredAlg = false).
    { destruct (array_includes xs requiredAlg) eqn:Hb; [|reflexivity].
      apply array_includes_elem in Hb. contradiction. }
    split; [|split].
    + intros s. unfold check_algorithms, requiredAlg in *. simpl. rewrite Hinc.
      reflexivity.
    + rewrite (Hrun false Hinc). simpl. rewrite !elem_of_cons. auto.
    + rewrite (Hrun false Hinc). unfold serving. simpl.
      apply not_serving_no_listen. intros ev Hev.
      rewrite !elem_of_cons in Hev.
      destruct Hev as [->|[->|[->|Hev]]]; try exact I.
      by apply elem_of_nil in Hev.
Qed.

Lemma C3_algorithm_policy_witness :
  (JStr "RS256" ∈ [JStr "RS256"]
   ∧ (∀ s, check_algorithms (JArr [JStr "RS256"]) s = (Ok tt, s))
   ∧ EvListCollections ∈ trace (snd (startServer Sample.env Sample.config (fresh ∅))))
  ∧ ((JStr "RS256" ∉ [JStr "HS256"])
     ∧ (∀ s, check_algorithms (JArr [JStr "HS256"]) s
             = (Throw (AlgorithmError [JStr "HS256"]), s))
     ∧ EvExit 1 ∈ trace (snd (startServer env_hs256 Sample.config (fresh ∅)))
     ∧ ¬ serving (snd (startServer env_hs256 Sample.config (fresh ∅)))).
Proof.
  assert (Hin : JStr "RS256" ∈ [JStr "RS256"]) by (apply list_elem_of_here).
  assert (Hout : JStr "RS256" ∉ [JStr "HS256"]).
  { intros H. apply list_elem_of_singleton in H. discriminate. }
  split.
  - split; [exact Hin|].
    apply (C3_algorithm_policy Sample.env Sample.config 200 Sample.metadata
             [JStr "RS256"]); try reflexivity; [lia | exact Hin].
  - split; [exact Hout|].
    apply (C3_algorithm_policy env_hs256 Sample.config 200 metadata_hs256
             [JStr "HS256"]); try reflexivity; [lia | exact Hout].
Defined.

(* ===================================================================== *)
(** ** The routes *)
(* ===================================================================== *)

(** What a run of the JWKS gate comes to: an early 401, a 401 after a failed
    verification, or the handler run with the identity attached. *)
Lemma jwks_gate_cases (E : Env) (h : option string) (next : M unit) (s : St) :
  (∃ b, createAuthMiddleware E h next s
        = (Ok tt, mkSt (db s) (Some (mkResponse 401 b)) (user s) (trace s)))
  ∨ (∃ token e, presents h token
       ∧ createAuthMiddleware E h next s
         = (Ok tt, mkSt (db s) (Some generic_401) (user s)
                     (trace s ++ [EvVerify token;
                                  EvLog "[AUTH] JWT validation error:" (Some e)])))
  ∨ (∃ token c, presents h token
       ∧ createAuthMiddleware E h next s
         = call_async next (mkSt (db s) (res s) (Some c) (trace s ++ [EvVerify token]))).
Proof.
  unfold createAuthMiddleware, no_bearer.
  destruct h as [hd|]; simpl; [|left; eexists; reflexivity].
  destruct (negb (negb (hd =? EmptyString)%string)); simpl;
    [left; eexists; reflexivity|].
  destruct (String.prefix "Bearer " hd) eqn:Hp; simpl; [|left; eexists; reflexivity].
  destruct (bearer_token hd) as [token|] eqn:Ht; simpl; [|left; eexists; reflexivity].
  destruct (negb (negb (token =? EmptyString)%string)); simpl;
    [left; eexists; reflexivity|].
  assert (Hpr : presents (Some hd) token) by (exists hd; auto).
  right.
  unfold try_catch, bind, emit, library_result, read_prop, ret, throw, set_user, send.
  destruct (jwtVerify E token) as [why|payload]; simpl;
    [left; eexists _, _; split; [exact Hpr|]; rewrite <- app_assoc; reflexivity|].
  destruct (prop payload "sub") as [sub|]; simpl;
    [|left; eexists _, _; split; [exact Hpr|]; rewrite <- app_assoc; reflexivity].
  destruct (prop payload "email") as [em|]; simpl;
    [|left; eexists _, _; split; [exact Hpr|]; rewrite <- app_assoc; reflexivity].
  destruct (prop payload "alias") as [al|]; simpl;
    [|left; eexists _, _; split; [exact Hpr|]; rewrite <- app_assoc; reflexivity].
  destruct (negb (is_string sub) || negb (truthy em) || negb (truthy al)); simpl;
    [left; eexists _, _; split; [exact Hpr|]; rewrite <- app_assoc; reflexivity|].
  right. exists token, {| id := sub; email := em; alias := al |}.
  split; [exact Hpr|].
  match goal with |- context [call_async next ?st] =>
    destruct (call_async next st) as [[[]|e] s'] eqn:Hc end; [reflexivity|].
  unfold call_async in Hc. destruct (next _) as [[|] ?]; discriminate.
Qed.

(** A 201 from the handler comes from one path only: the provider answered
    with a 2xx and the body [b], and the write of [b] succeeded. *)
Lemma post_contact_201 (E : Env) (config : Config) (req : Request) (s : St)
    (b : JsValue) :
  res s = None →
  res (snd (post_contact E config req s)) = Some (mkResponse 201 b) →
  ∃ em c code s1,
    prop (req_body req) "email" = Some em ∧ truthy em = true
    ∧ provider E (mkUrl (identityServiceUrl config) em)
        [("X-Internal-API-Key", internalApiKey config)] = Responded code b
    ∧ user s = Some c
    ∧ addContactToAddressBook E (id c) b
        (mkSt (db s) (res s) (user s)
           (trace s ++ [EvLookup (mkUrl (identityServiceUrl config) em)
                          [("X-Internal-API-Key", internalApiKey config)]]))
      = (Ok tt, s1)
    ∧ snd (post_contact E config req s)
      = mkSt (db s1) (Some (mkResponse 201 b)) (user s1) (trace s1).
Proof.
  intros Hnone. unfold post_contact.
  unfold try_catch, bind, emit, axios_result, read_prop, ret, throw, send, user_id, get_user.
  destruct (prop (req_body req) "email") as [em|]; simpl; [|congruence].
  destruct (truthy em) eqn:Hem; simpl; [|congruence].
  destruct (provider E _ _) as [|code data] eqn:Hprov; simpl; [congruence|].
  destruct ((200 <=? code)%Z && (code <? 300)%Z)%bool; simpl.
  2:{ destruct (code =? 404)%Z; simpl; congruence. }
  destruct (user s) as [c|] eqn:Hu; simpl; [|congruence].
  destruct (addContactToAddressBook E (id c) data _) as [[[]|e] s1] eqn:Hadd; simpl.
  - intros [= <-]. exists em, c, code, s1. rewrite Hnone in *. repeat split; auto.
  - apply add_throw in Hadd as (_ & _ & _ & H404 & _). rewrite H404. simpl. congruence.
Qed.

(** The handler on a request without an email: 400, and the state is
    otherwise untouched. *)
Lemma post_contact_no_email (E : Env) (config : Config) (req : Request) (s : St) :
  (prop (req_body req) "email" = Some JUndefined
   ∨ prop (req_body req) "email" = Some (JStr EmptyString)) →
  post_contact E config req s
  = (Ok tt, mkSt (db s) (Some (mkResponse 400 (error_body "Email is required.")))
              (user s) (trace s)).
Proof. intros [H|H]; unfold post_contact, bind, read_prop; rewrite H; reflexivity. Qed.

(** C8. A POST whose body has no [email], or an empty one: the store is
    unchanged, no look-up and no store call is made, and whenever the gate
    let the request through (an identity is attached) the answer is 400. *)
Theorem C8_missing_email_is_400 (E : Env) (config : Config) (req : Request) (d : Db) :
  (prop (req_body req) "email" = Some JUndefined
   ∨ prop (req_body req) "email" = Some (JStr EmptyString)) →
  db (snd (route_post E config req (fresh d))) = d
  ∧ (∀ ev, ev ∈ trace (snd (route_post E config req (fresh d))) →
       is_lookup ev = false ∧ is_write ev = false ∧ is_read ev = false)
  ∧ (is_Some (user (snd (route_post E config req (fresh d)))) →
     res (snd (route_post E config req (fresh d)))
     = Some (mkResponse 400 (error_body "Email is required."))).
Proof.
  intros Hem. unfold route_post.
  destruct (jwks_gate_cases E (authorization req) (post_contact E config req) (fresh d))
    as [[b ->]|[(token & e & _ & ->)|(token & c & _ & ->)]]; simpl.
  - split; [done|]. split; [intros ev Hev; by apply elem_of_nil in Hev|].
    intros [? ?]. discriminate.
  - split; [done|]. split; [|intros [? ?]; discriminate].
    intros ev Hev. rewrite !elem_of_cons in Hev.
    destruct Hev as [->|[->|Hev]]; [done|done|by apply elem_of_nil in Hev].
  - unfold call_async. rewrite (post_contact_no_email E config req _ Hem). simpl.
    split; [done|]. split; [|done].
    intros ev Hev. apply list_elem_of_singleton in Hev as ->. done.
Qed.

Lemma C8_missing_email_is_400_witness :
  let req := Sample.request (Some "Bearer good") (JObj [("name", JStr "a")]) in
  (prop (req_body req) "email" = Some JUndefined
   ∨ prop (req_body req) "email" = Some (JStr EmptyString))
  ∧ is_Some (user (snd (route_post Sample.env Sample.config req (fresh ∅))))
  ∧ res (snd (route_post Sample.env Sample.config req (fresh ∅)))
    = Some (mkResponse 400 (error_body "Email is required.")).
Proof.
  intros req.
  assert (H : prop (req_body req) "email" = Some JUndefined
              ∨ prop (req_body req) "email" = Some (JStr EmptyString))
    by (left; reflexivity).
  split; [exact H|].
  assert (Hu : is_Some (user (snd (route_post Sample.env Sample.config req (fresh ∅)))))
    by (eexists; reflexivity).
  split; [exact Hu|].
  destruct (C8_missing_email_is_400 Sample.env Sample.config req ∅ H) as (_ & _ & Hres).
  exact (Hres Hu).
Defined.

(* ===================================================================== *)
(** ** Failures of the add-contact operation *)
(* ===================================================================== *)

Ltac range_cases code :=
  destruct (Z.leb_spec 200 code), (Z.ltb_spec code 300), (Z.eqb_spec code 404);
  simpl in *.

Ltac failure_cases :=
  crunch; simpl;
  repeat split; intros; simplify_eq; try lia; try reflexivity; try congruence;
  rewrite <- ?app_assoc;
  try (eexists; split; [reflexivity|]; unfold count; simpl; lia).

Lemma add_trace E ownerV c s :
  ∃ evs, trace (snd (addContactToAddressBook E ownerV c s)) = trace s ++ evs
         ∧ (count is_lookup evs = 0)%nat ∧ (count is_write evs ≤ 1)%nat
         ∧ (store_up E = false →
            ∃ e, fst (addContactToAddressBook E ownerV c s) = Throw e)
         ∧ (∀ e, fst (addContactToAddressBook E ownerV c s) = Throw e →
            is_axios_404 e = false)
         ∧ res (snd (addContactToAddressBook E ownerV c s)) = res s.
Proof.
  destruct (addContactToAddressBook E ownerV c s) as [[[]|e] s1] eqn:Hadd; simpl.
  - apply add_ok in Hadd
      as (book & raw & path & a & e & _ & _ & _ & _ & _ & Hup & _ & ->). simpl.
    eexists. split; [reflexivity|]. unfold count. simpl.
    repeat split; try lia; try congruence.
  - apply add_throw in Hadd as (_ & Hres & _ & H404 & [Htr|(ev & Hev & Htr)]).
    + exists []. rewrite app_nil_r. unfold count. simpl.
      repeat split; try lia; eauto; congruence.
    + exists [ev]. unfold count. simpl. rewrite Hev. simpl.
      destruct ev; try discriminate. simpl.
      repeat split; try lia; eauto; congruence.
Qed.

Lemma post_contact_failures (E : Env) (config : Config) (req : Request) (em : JsValue) :
  prop (req_body req) "email" = Some em → truthy em = true →
  failure_mapping E (mkUrl (identityServiceUrl config) em)
    [("X-Internal-API-Key", internalApiKey config)] (post_contact E config req).
Proof.
  intros Hem Ht s.
  unfold post_contact.
  autounfold with monad_ops. rewrite Hem, Ht. simpl.
  destruct (provider E _ _) as [|code data] eqn:Hprov; simpl.
  - failure_cases.
  - range_cases code; try solve [failure_cases].
    all: match goal with |- context [user ?s] =>
           destruct (user s) as [c|]; simpl; [|failure_cases] end.
    all: match goal with |- context [addContactToAddressBook ?E ?o ?d ?st] =>
           destruct (add_trace E o d st) as (evs & Htr & Hl & Hw & Hdown & H404 & Hres);
           destruct (addContactToAddressBook E o d st) as [[[]|e] s1] eqn:Hadd
         end; simpl in *.
    all: try (match goal with H : ∀ e, Throw _ = Throw e → _ |- _ =>
                rewrite (H _ eq_refl) end); simpl.
    all: repeat split; intros; simplify_eq; try lia; try reflexivity; try congruence.
    all: try (match goal with
              | H : ?up = false, H' : ?up = false → ∃ e, Ok tt = Throw e |- _ =>
                  destruct (H' H) as [? ?]; discriminate end).
    all: match goal with H : trace _ = _ |- _ => rewrite ?H, <- ?app_assoc end.
    all: eexists; (split; [reflexivity|]); unfold count in *; simpl;
           rewrite ?List.filter_app, ?length_app; simpl; lia.
Qed.

Lemma secret_post_contact_failures (E : Env) (config : SecretConfig.Config)
    (req : Request) (em : JsValue) :
  prop (req_body req) "email" = Some em → truthy em = true →
  failure_mapping E (mkUrl (SecretConfig.identityServiceUrl config) em)
    [("Authorization", from_option JStr JUndefined (authorization req))]
    (SecretMain.post_contact E config req).
Proof.
  intros Hem Ht s.
  unfold SecretMain.post_contact.
  autounfold with monad_ops. rewrite Hem, Ht. simpl.
  destruct (provider E _ _) as [|code data] eqn:Hprov; simpl.
  - failure_cases.
  - range_cases code; try solve [failure_cases].
    all: match goal with |- context [user ?s] =>
           destruct (user s) as [c|]; simpl; [|failure_cases] end.
    all: match goal with |- context [addContactToAddressBook ?E ?o ?d ?st] =>
           destruct (add_trace E o d st) as (evs & Htr & Hl & Hw & Hdown & H404 & Hres);
           destruct (addContactToAddressBook E o d st) as [[[]|e] s1] eqn:Hadd
         end; simpl in *.
    all: try (match goal with H : ∀ e, Throw _ = Throw e → _ |- _ =>
                rewrite (H _ eq_refl) end); simpl.
    all: repeat split; intros; simplify_eq; try lia; try reflexivity; try congruence.
    all: try (match goal with
              | H : ?up = false, H' : ?up = false → ∃ e, Ok tt = Throw e |- _ =>
                  destruct (H' H) as [? ?]; discriminate end).
    all: match goal with H : trace _ = _ |- _ => rewrite ?H, <- ?app_assoc end.
    all: eexists; (split; [reflexivity|]); unfold count in *; simpl;
           rewrite ?List.filter_app, ?length_app; simpl; lia.
Qed.

(** C7. In both generations of the add-contact handler, once the request
    carries an email: a 404 from the provider is answered 404; any other
    non-2xx status, a network failure, or a failed write after a successful
    look-up is answered 500; and the handler calls the provider at most once
    and writes to the store at most once (nothing is retried). *)
Theorem C7_add_contact_failures (E : Env) (config : Config)
    (sconfig : SecretConfig.Config) (req : Request) (em : JsValue) :
  prop (req_body req) "email" = Some em → truthy em = true →
  failure_mapping E (mkUrl (identityServiceUrl config) em)
    [("X-Internal-API-Key", internalApiKey config)] (post_contact E config req)
  ∧ failure_mapping E (mkUrl (SecretConfig.identityServiceUrl sconfig) em)
      [("Authorization", from_option JStr JUndefined (authorization req))]
      (SecretMain.post_contact E sconfig req).
Proof.
  intros Hem Ht. split.
  - by apply post_contact_failures.
  - by apply secret_post_contact_failures.
Qed.

Lemma C7_add_contact_failures_witness :
  let req := Sample.request (Some "Bearer good")
               (JObj [("email", JStr "missing@example.com")]) in
  let em := JStr "missing@example.com" in
  prop (req_body req) "email" = Some em ∧ truthy em = true
  ∧ sent_status (snd (post_contact Sample.env Sample.config req (fresh ∅))) = Some 404
  ∧ sent_status (snd (SecretMain.post_contact Sample.env Sample.secret_config req
                        (fresh ∅))) = Some 404.
Proof.
  intros req em.
  split; [reflexivity|]. split; [reflexivity|].
  destruct (C7_add_contact_failures Sample.env Sample.config Sample.secret_config
              req em eq_refl eq_refl) as [HA HB].
  split.
  - destruct (HA (fresh ∅)) as [H404 _].
    apply (H404 (error_body "Not found")). reflexivity.
  - destruct (HB (fresh ∅)) as [H404 _].
    apply (H404 (error_body "Not found")). reflexivity.
Defined.

(* ===================================================================== *)
(** ** Adding a contact, then listing *)
(* ===================================================================== *)

Lemma call_async_proj (h : M unit) (s : St) :
  db (snd (call_async h s)) = db (snd (h s))
  ∧ res (snd (call_async h s)) = res (snd (h s))
  ∧ user (snd (call_async h s)) = user (snd (h s)).
Proof. unfold call_async. destruct (h s) as [[|] s']; simpl; auto. Qed.

Lemma get_address_book_keeps_user (E : Env) (s : St) :
  user (snd (get_address_book E s)) = user s.
Proof.
  unfold get_address_book, user_id, try_catch, bind, get_user, ret, throw, send, emit.
  destruct (user s) as [c|] eqn:Hu; simpl; [|congruence].
  destruct (getUserAddressBook E (id c) s) as [[l|e] s'] eqn:Hg; simpl.
  - apply get_ok in Hg as (book & _ & _ & _ & ->). simpl. congruence.
  - apply get_throw in Hg as (_ & _ & Hs). simpl. congruence.
Qed.

Lemma get_address_book_200 (E : Env) (s : St) (c : Contact) (book : list string) :
  user s = Some c → address_book (id c) = Ok book → store_up E = true →
  res (snd (get_address_book E s))
  = Some (mkResponse 200
            (JArr (map contact_obj
                     (map doc_to_contact
                        (map snd (map_to_list (Firestore.docs (db s) book))))))).
Proof.
  intros Hu Hbook Hup.
  unfold get_address_book, user_id, try_catch, bind, get_user, ret, throw, send, emit.
  rewrite Hu. simpl. rewrite (get_runs E (id c) book s Hbook Hup). reflexivity.
Qed.

Lemma listed_after_write (d : Db) (book : list string) (key : string) (data : Doc) :
  contact_obj (doc_to_contact data)
  ∈ map contact_obj
      (map doc_to_contact
         (map snd (map_to_list (Firestore.docs (written d book key data) book)))).
Proof.
  apply list_elem_of_In. apply in_map, in_map.
  apply (in_map snd _ (key, data)). apply list_elem_of_In.
  apply elem_of_map_to_list. rewrite docs_written. apply lookup_insert_eq.
Qed.

(** C6. The provider answers the look-up with the record
    [{id: 'x/y/z', email: 'n@example.com', alias: 'N'}]: the POST is answered
    201 with that record as the body, and the following GET by the same
    caller is answered 200 with the empty list, so the contact is not in
    it. *)
Theorem C6_nested_id_is_not_listed :
  let post := Sample.request (Some "Bearer good")
                (JObj [("email", JStr "n@example.com")]) in
  let get := Sample.request (Some "Bearer good") JUndefined in
  let s1 := snd (route_post Sample.env Sample.config post (fresh ∅)) in
  let s2 := snd (route_get Sample.env get (fresh (db s1))) in
  provider Sample.env
    (mkUrl (identityServiceUrl Sample.config) (JStr "n@example.com"))
    [("X-Internal-API-Key", internalApiKey Sample.config)]
  = Responded 200 Sample.contact_nested
  ∧ res s1 = Some (mkResponse 201 Sample.contact_nested)
  ∧ user s1 = Some Sample.me ∧ user s2 = Some Sample.me
  ∧ res s2 = Some (mkResponse 200 (JArr [])).
Proof. repeat split; vm_compute; reflexivity. Qed.

(* ===================================================================== *)
(** ** The shape of stored documents *)
(* ===================================================================== *)

Lemma post_contact_db (E : Env) (config : Config) (req : Request) (s : St) :
  db (snd (post_contact E config req s)) = db s
  ∨ ∃ ownerV c st, db st = db s
      ∧ db (snd (post_contact E config req s))
        = db (snd (addContactToAddressBook E ownerV c st)).
Proof.
  unfold post_contact, user_id.
  unfold try_catch, bind, emit, axios_result, read_prop, ret, throw, send, get_user.
  destruct (prop (req_body req) "email") as [em|]; simpl; [|by left].
  destruct (truthy em); simpl; [|by left].
  destruct (provider E _ _) as [|code data]; simpl; [by left|].
  destruct ((200 <=? code)%Z && (code <? 300)%Z)%bool; simpl.
  2:{ destruct (code =? 404)%Z; simpl; by left. }
  destruct (user s) as [c|]; simpl; [|by left].
  right.
  match goal with |- context [addContactToAddressBook E ?o ?c ?st] =>
    exists o, c, st; split; [reflexivity|];
    destruct (addContactToAddressBook E o c st) as [[[]|e] s1]; simpl;
    [reflexivity | destruct (is_axios_404 e); reflexivity]
  end.
Qed.

(** C10. The write of the record [{id: 'x/y/z', email: 'n@example.com',
    alias: 'N'}] into the address book of [u1] succeeds and leaves a document
    with the three fields alias, email, userId, stored under the id [z] of
    the collection [authorized_users/u1/address_book/x/y], with the userId
    [x/y/z]: the userId of a stored document is not the id it is stored
    under, and the address book of [u1] lists no contact. *)
Theorem C10_nested_id_breaks_the_key :
  let add := addContactToAddressBook Sample.env (JStr "u1") Sample.contact_nested
               (fresh ∅) in
  fst add = Ok tt
  ∧ Firestore.docs (db (snd add))
      ["authorized_users"; "u1"; "address_book"; "x"; "y"] !! "z"
    = Some [("alias", JStr "N"); ("email", JStr "n@example.com");
            ("userId", JStr "x/y/z")]
  ∧ ¬ store_inv (db (snd add))
  ∧ fst (getUserAddressBook Sample.env (JStr "u1") (snd add)) = Ok [].
Proof.
  intros add.
  assert (Hdoc : Firestore.docs (db (snd add))
                   ["authorized_users"; "u1"; "address_book"; "x"; "y"] !! "z"
                 = Some [("alias", JStr "N"); ("email", JStr "n@example.com");
                         ("userId", JStr "x/y/z")])
    by (vm_compute; reflexivity).
  split; [reflexivity|]. split; [exact Hdoc|]. split; [|vm_compute; reflexivity].
  intros Hinv. destruct (Hinv _ _ _ Hdoc) as [_ Hid]. discriminate.
Qed.

(* ===================================================================== *)
(** ** Configuration *)
(* ===================================================================== *)

Lemma not_serving_fresh d : ¬ serving (fresh d).
Proof. intros [p Hp]. simpl in Hp. by apply elem_of_nil in Hp. Qed.

Lemma check_required_falsy (get : string → JsValue) (keys : list string) (k : string) :
  k ∈ keys → truthy (get k) = false → ∃ e, check_required get keys = Throw e.
Proof.
  induction keys as [|k' keys IH]; intros Hin Hk; [by apply elem_of_nil in Hin|].
  simpl. destruct (truthy (get k')) eqn:Hk'; simpl; [|eexists; reflexivity].
  apply elem_of_cons in Hin as [->|Hin]; [congruence|]. by apply IH.
Qed.

Lemma load_config_absent penv :
  penv !! "GCP_PROJECT_ID" = None ∨ penv !! "IDENTITY_SERVICE_URL" = None
  ∨ penv !! "INTERNAL_API_KEY" = None →
  ∃ e, load_config penv = Throw e.
Proof.
  intros H. unfold load_config.
  match goal with |- context [check_required ?g ?ks] =>
    assert (Hc : ∃ e, check_required g ks = Throw e);
    [|destruct Hc as [e ->]; eauto]
  end.
  destruct H as [H|[H|H]];
    [apply check_required_falsy with (k := "gcpProjectId")
    |apply check_required_falsy with (k := "identityServiceUrl")
    |apply check_required_falsy with (k := "internalApiKey")];
    try (unfold requiredSecrets; rewrite !elem_of_cons; auto 6; fail).
  all: unfold config_get, env_var; cbn [String.eqb Ascii.eqb Bool.eqb port gcpProjectId
         identityServiceUrl internalApiKey]; rewrite H; reflexivity.
Qed.

Lemma secret_load_config_absent penv :
  penv !! "GCP_PROJECT_ID" = None ∨ penv !! "JWT_SECRET" = None
  ∨ penv !! "IDENTITY_SERVICE_URL" = None →
  ∃ e, SecretConfig.load_config penv = Throw e.
Proof.
  intros H. unfold SecretConfig.load_config.
  match goal with |- context [check_required ?g ?ks] =>
    assert (Hc : ∃ e, check_required g ks = Throw e);
    [|destruct Hc as [e ->]; eauto]
  end.
  destruct H as [H|[H|H]];
    [apply check_required_falsy with (k := "gcpProjectId")
    |apply check_required_falsy with (k := "jwtSecret")
    |apply check_required_falsy with (k := "identityServiceUrl")];
    try (unfold SecretConfig.requiredSecrets; rewrite !elem_of_cons; auto 6; fail).
  all: unfold SecretConfig.config_get, env_var;
    cbn [String.eqb Ascii.eqb Bool.eqb SecretConfig.port SecretConfig.gcpProjectId
         SecretConfig.identityServiceUrl SecretConfig.jwtSecret];
    rewrite H; reflexivity.
Qed.

Lemma load_config_port penv c :
  penv !! "PORT" = None → load_config penv = Ok c → port c = JNum 3001.
Proof.
  intros Hp. unfold load_config.
  match goal with |- context [check_required ?g ?ks] =>
    destruct (check_required g ks) end; intros [= <-].
  unfold env_var. rewrite Hp. reflexivity.
Qed.

Lemma secret_load_config_port penv c :
  penv !! "PORT" = None → SecretConfig.load_config penv = Ok c →
  SecretConfig.port c = JNum 3001.
Proof.
  intros Hp. unfold SecretConfig.load_config.
  match goal with |- context [check_required ?g ?ks] =>
    destruct (check_required g ks) end; intros [= <-].
  unfold env_var. rewrite Hp. reflexivity.
Qed.

(** C9. Importing the configuration throws, and the server never listens,
    when the project id, the identity-provider url or the internal API key
    is absent from the environment (shared-secret generation: the project
    id, the JWT secret or the identity-provider url). The port is not
    required: absent, it is 3001. *)
Theorem C9_required_configuration (E : Env) (penv : gmap string string) :
  (penv !! "GCP_PROJECT_ID" = None ∨ penv !! "IDENTITY_SERVICE_URL" = None
   ∨ penv !! "INTERNAL_API_KEY" = None →
   (∃ e, load_config penv = Throw e) ∧ ¬ serving (snd (boot E penv)))
  ∧ (penv !! "GCP_PROJECT_ID" = None ∨ penv !! "JWT_SECRET" = None
     ∨ penv !! "IDENTITY_SERVICE_URL" = None →
     (∃ e, SecretConfig.load_config penv = Throw e)
     ∧ ¬ serving (snd (SecretStart.boot E penv)))
  ∧ (penv !! "PORT" = None →
     (∀ c, load_config penv = Ok c → port c = JNum 3001)
     ∧ (∀ c, SecretConfig.load_config penv = Ok c → SecretConfig.port c = JNum 3001)).
Proof.
  split; [|split].
  - intros H. destruct (load_config_absent penv H) as [e He].
    split; [eauto|]. unfold boot. rewrite He. apply not_serving_fresh.
  - intros H. destruct (secret_load_config_absent penv H) as [e He].
    split; [eauto|]. unfold SecretStart.boot. rewrite He. apply not_serving_fresh.
  - intros Hp. split; intros c Hc.
    + by apply load_config_port with penv.
    + by apply secret_load_config_port with penv.
Qed.

Lemma C9_counterexample :
  penv_no_port !! "PORT" = None
  ∧ load_config penv_no_port
    = Ok {| port := JNum 3001; gcpProjectId := JStr "proj";
            identityServiceUrl := JStr "https://id.example.com";
            internalApiKey := JStr "k" |}
  ∧ serving (snd (boot Sample.env penv_no_port)).
Proof.
  split; [reflexivity|]. split; [reflexivity|].
  exists (JNum 3001).
  assert (Ht : trace (snd (boot Sample.env penv_no_port))
               = [EvDiscover (JStr "https://id.example.com"); EvListCollections;
                  EvListen (JNum 3001)]) by reflexivity.
  rewrite Ht, !elem_of_cons. auto.
Qed.

Lemma C9_required_configuration_witness :
  let penv : gmap string string := {[ "GCP_PROJECT_ID" := "proj"; "PORT" := "8080" ]} in
  (penv !! "GCP_PROJECT_ID" = None ∨ penv !! "IDENTITY_SERVICE_URL" = None
   ∨ penv !! "INTERNAL_API_KEY" = None)
  ∧ (∃ e, load_config penv = Throw e)
  ∧ ¬ serving (snd (boot Sample.env penv)).
Proof.
  intros penv.
  assert (H : penv !! "GCP_PROJECT_ID" = None ∨ penv !! "IDENTITY_SERVICE_URL" = None
              ∨ penv !! "INTERNAL_API_KEY" = None) by (right; left; reflexivity).
  split; [exact H|].
  destruct (C9_required_configuration Sample.env penv) as (Hjwks & _ & _).
  exact (Hjwks H).
Defined.

(* ===================================================================== *)
(** * Further properties of the code *)
(* ===================================================================== *)

(* ===================================================================== *)
(** ** Tokens and the two gates *)
(* ===================================================================== *)

Lemma split_on_nonempty (sep : ascii) (s : string) : split_on sep s ≠ [].
Proof.
  induction s as [|c s IH]; simpl; [done|].
  destruct (Ascii.eqb c sep); [done|]. by destruct (split_on sep s).
Qed.

Lemma includes_space_cons (c : ascii) (h : string) :
  string_includes " " (String c h)
  = (if Ascii.ascii_dec " " c then true else false) || string_includes " " h.
Proof.
  cbn [string_includes String.prefix].
  destruct (Ascii.ascii_dec " " c); [|reflexivity]. by destruct h.
Qed.

Lemma split_on_no_sep (s x : string) :
  x ∈ split_on " "%char s → string_includes " " x = false.
Proof.
  revert x. induction s as [|c s IH]; intros x; simpl.
  - intros Hx. apply list_elem_of_singleton in Hx as ->. reflexivity.
  - destruct (Ascii.eqb_spec c " "%char) as [->|Hc].
    + intros Hx. apply elem_of_cons in Hx as [->|Hx]; [reflexivity|by apply IH].
    + destruct (split_on " "%char s) as [|h t] eqn:Hs;
        [by destruct (split_on_nonempty " "%char s)|].
      intros Hx. apply elem_of_cons in Hx as [->|Hx].
      * rewrite includes_space_cons.
        destruct (Ascii.ascii_dec " " c) as [<-|_]; [done|]. simpl.
        apply IH. apply list_elem_of_here.
      * apply IH. by apply list_elem_of_further.
Qed.

Lemma bearer_token_after_prefix (t : string) :
  bearer_token ("Bearer " +:+ t) = head (split_on " "%char t).
Proof.
  unfold bearer_token.
  change ("Bearer " +:+ t) with (String "B" (String "e" (String "a" (String "r"
    (String "e" (String "r" (String " " t))))))).
  cbn [split_on Ascii.eqb Bool.eqb].
  destruct (split_on " "%char t) eqn:Ht; [by destruct (split_on_nonempty " "%char t)|].
  reflexivity.
Qed.

Lemma bearer_token_defined (h : string) :
  String.prefix "Bearer " h = true →
  ∃ t, bearer_token h = Some t ∧ string_includes " " t = false.
Proof.
  intros Hp. apply prefix_split in Hp as [t ->].
  rewrite bearer_token_after_prefix.
  destruct (split_on " "%char t) as [|x l] eqn:Ht;
    [by destruct (split_on_nonempty " "%char t)|].
  exists x. split; [reflexivity|].
  apply (split_on_no_sep t). rewrite Ht. apply list_elem_of_here.
Qed.

Lemma call_async_ok (h : M unit) (s : St) : fst (call_async h s) = Ok tt.
Proof. unfold call_async. by destruct (h s) as [[|] ?]. Qed.

(** X1. Once the header starts with [Bearer ], [authHeader.split(' ')[1]] is
    always defined and holds no space; so the shared-secret gate never
    throws its [Token is undefined] error. *)
Theorem X1_token_always_defined (E : Env) (config : SecretConfig.Config)
    (h : string) (next : M unit) (s : St) :
  String.prefix "Bearer " h = true →
  (∃ t, bearer_token h = Some t ∧ string_includes " " t = false)
  ∧ fst (SecretAuth.authMiddleware E config (Some h) next s)
    ≠ Throw (JsError "Token is undefined").
Proof.
  intros Hp. destruct (bearer_token_defined h Hp) as (t & Ht & Hsp).
  split; [eauto|].
  unfold SecretAuth.authMiddleware, no_bearer. rewrite Hp. simpl.
  destruct (negb (negb (h =? EmptyString)%string)); simpl; [done|].
  rewrite Ht.
  unfold try_catch, bind, emit, library_result, read_prop, ret, throw, set_user, send.
  destruct (SecretConfig.jwtSecret config); simpl; try done.
  all: crunch; simpl; try done.
  all: match goal with H : call_async _ _ = _ |- _ =>
         apply (f_equal fst) in H; rewrite call_async_ok in H; simpl in H;
         congruence end.
Qed.

Lemma X1_token_always_defined_witness :
  String.prefix "Bearer " "Bearer abc def" = true
  ∧ (∃ t, bearer_token "Bearer abc def" = Some t ∧ string_includes " " t = false)
  ∧ fst (SecretAuth.authMiddleware Sample.env Sample.secret_config
           (Some "Bearer abc def") (ret tt) (fresh ∅))
    ≠ Throw (JsError "Token is undefined").
Proof.
  split; [reflexivity|].
  apply (X1_token_always_defined Sample.env Sample.secret_config "Bearer abc def"
           (ret tt) (fresh ∅)).
  reflexivity.
Defined.

Lemma check_required_ok (get : string → JsValue) (keys : list string) :
  check_required get keys = Ok tt ↔ ∀ k, k ∈ keys → truthy (get k) = true.
Proof.
  induction keys as [|k keys IH]; simpl.
  - split; [intros _ k Hk; by apply elem_of_nil in Hk|done].
  - destruct (truthy (get k)) eqn:Hk; simpl.
    + rewrite IH. split.
      * intros H k' Hk'. apply elem_of_cons in Hk' as [->|Hk']; auto.
      * intros H k' Hk'. apply H. by apply list_elem_of_further.
    + split; [discriminate|]. intros H.
      specialize (H k (list_elem_of_here _ _)). congruence.
Qed.

(** X2. The JWKS gate hands the token library only a token that is not empty
    and holds no space: the text between the first and the second space of
    a header that starts with [Bearer ]. *)
Theorem X2_verifier_sees_clean_tokens (E : Env) (h : option string) (d : Db)
    (t : string) :
  EvVerify t ∈ trace (snd (createAuthMiddleware E h (ret tt) (fresh d))) →
  presents h t ∧ t ≠ EmptyString ∧ string_includes " " t = false.
Proof.
  unfold createAuthMiddleware, no_bearer.
  destruct h as [hd|]; simpl; [|intros H; by apply elem_of_nil in H].
  destruct (negb (negb (hd =? EmptyString)%string)); simpl;
    [intros H; by apply elem_of_nil in H|].
  destruct (String.prefix "Bearer " hd) eqn:Hp; simpl;
    [|intros H; by apply elem_of_nil in H].
  destruct (bearer_token_defined hd Hp) as (token & Ht & Hsp). rewrite Ht.
  destruct (String.eqb_spec token EmptyString) as [->|Hne]; simpl;
    [intros H; by apply elem_of_nil in H|].
  assert (Hgoal : presents (Some hd) token ∧ token ≠ EmptyString
                  ∧ string_includes " " token = false).
  { split; [exists hd; auto|auto]. }
  unfold try_catch, bind, emit, library_result, read_prop, ret, throw, set_user, send,
    call_async.
  crunch; simpl; intros H; apply elem_of_cons in H as [[= ->]|H];
    try exact Hgoal; exfalso; revert H; rewrite ?elem_of_cons, elem_of_nil;
    intros H; repeat (destruct H as [H|H]; try discriminate); exact H.
Qed.

Lemma X2_verifier_sees_clean_tokens_witness :
  EvVerify "good" ∈ trace (snd (createAuthMiddleware Sample.env
                                   (Some "Bearer good and more") (ret tt) (fresh ∅)))
  ∧ presents (Some "Bearer good and more") "good" ∧ "good" ≠ EmptyString
  ∧ string_includes " " "good" = false.
Proof.
  assert (H : EvVerify "good" ∈ trace (snd (createAuthMiddleware Sample.env
                (Some "Bearer good and more") (ret tt) (fresh ∅))))
    by apply list_elem_of_here.
  split; [exact H|].
  exact (X2_verifier_sees_clean_tokens Sample.env (Some "Bearer good and more") ∅
           "good" H).
Defined.

(** X3. A token the library accepts, with a string [sub] and truthy [email]
    and [alias], always reaches the handler: the JWKS gate sends nothing,
    attaches [{id: sub, email, alias}] and calls [next]. *)
Theorem X3_valid_token_reaches_handler (E : Env) (h : option string) (next : M unit)
    (s : St) (token sub : string) (payload em al : JsValue) :
  presents h token → token ≠ EmptyString →
  jwtVerify E token = inr payload →
  prop payload "sub" = Some (JStr sub) →
  prop payload "email" = Some em → truthy em = true →
  prop payload "alias" = Some al → truthy al = true →
  createAuthMiddleware E h next s
  = call_async next
      (mkSt (db s) (res s) (Some {| id := JStr sub; email := em; alias := al |})
         (trace s ++ [EvVerify token])).
Proof.
  intros Hp Hne Hv Hs He Hte Ha Hta.
  unfold createAuthMiddleware. rewrite (presents_no_bearer _ _ Hp).
  destruct Hp as (hd & -> & _ & Ht). simpl. rewrite Ht.
  destruct (String.eqb_spec token EmptyString) as [|_]; [done|]. simpl.
  unfold try_catch, bind, emit, library_result, read_prop, ret, throw, set_user, send.
  rewrite Hv. simpl. rewrite Hs, He, Ha. simpl. rewrite Hte, Hta. simpl.
  match goal with |- context [call_async next ?st] =>
    pose proof (call_async_ok next st) as Hok;
    destruct (call_async next st) as [[[]|e] s'] end; simpl in *; [reflexivity|].
  discriminate.
Qed.

Lemma X3_valid_token_reaches_handler_witness :
  createAuthMiddleware Sample.env (Some "Bearer good") (get_address_book Sample.env)
    (fresh ∅)
  = call_async (get_address_book Sample.env)
      (mkSt ∅ None (Some Sample.me) [EvVerify "good"]).
Proof.
  apply (X3_valid_token_reaches_handler Sample.env (Some "Bearer good")
           (get_address_book Sample.env) (fresh ∅) "good" "u1" Sample.payload_u1
           (JStr "me@example.com") (JStr "Me")); try reflexivity.
  - exists "Bearer good". repeat split.
  - discriminate.
Defined.

(** X4. The shared-secret gate lets through every accepted token whose [sub]
    is a string; [email] and [alias] are copied from the payload as they
    are, [undefined] included. *)
Theorem X4_secret_gate_needs_only_sub (E : Env) (config : SecretConfig.Config)
    (h : option string) (next : M unit) (s : St) (token sub : string)
    (payload : JsValue) :
  presents h token →
  truthy (SecretConfig.jwtSecret config) = true →
  jwt_verify E token (SecretConfig.jwtSecret config) = inr payload →
  prop payload "sub" = Some (JStr sub) →
  ∃ em al,
    prop payload "email" = Some em ∧ prop payload "alias" = Some al
    ∧ SecretAuth.authMiddleware E config h next s
      = call_async next
          (mkSt (db s) (res s) (Some {| id := JStr sub; email := em; alias := al |})
             (trace s ++ [EvVerify token])).
Proof.
  intros Hp Hsec Hv Hs.
  assert (Hall : ∀ k, ∃ v, prop payload k = Some v).
  { intros k. destruct payload; simpl in *; try discriminate; eauto. }
  destruct (Hall "email") as [em He], (Hall "alias") as [al Ha].
  exists em, al. split; [exact He|]. split; [exact Ha|].
  unfold SecretAuth.authMiddleware. rewrite (presents_no_bearer _ _ Hp).
  destruct Hp as (hd & -> & _ & Ht). simpl. rewrite Ht.
  unfold try_catch, bind, emit, library_result, read_prop, ret, throw, set_user, send.
  destruct (SecretConfig.jwtSecret config) eqn:Hj; try discriminate.
  all: rewrite Hv; simpl; rewrite Hs; simpl; rewrite He, Ha; simpl.
  all: match goal with |- context [call_async ?n ?st] =>
    pose proof (call_async_ok n st) as Hok;
    destruct (call_async n st) as [[[]|e] s'] end; simpl in *;
    [reflexivity|discriminate].
Qed.

Lemma X4_secret_gate_needs_only_sub_witness :
  ∃ em al,
    prop Sample.payload_sub_only "email" = Some em
    ∧ prop Sample.payload_sub_only "alias" = Some al
    ∧ SecretAuth.authMiddleware Sample.env_sub_only Sample.secret_config
        (Some "Bearer t") (ret tt) (fresh ∅)
      = call_async (ret tt)
          (mkSt ∅ None (Some {| id := JStr "u9"; email := em; alias := al |})
             [EvVerify "t"]).
Proof.
  apply (X4_secret_gate_needs_only_sub Sample.env_sub_only Sample.secret_config
           (Some "Bearer t") (ret tt) (fresh ∅) "t" "u9" Sample.payload_sub_only);
    try reflexivity.
  exists "Bearer t". repeat split.
Defined.

(** X5. When the shared-secret configuration loaded, its JWT secret is truthy
    and the gate never throws: every request is either answered by the gate
    or handed to the handler. *)
Theorem X5_loaded_secret_never_throws (E : Env) (penv : gmap string string)
    (config : SecretConfig.Config) (h : option string) (next : M unit) (s : St) :
  SecretConfig.load_config penv = Ok config →
  truthy (SecretConfig.jwtSecret config) = true
  ∧ fst (SecretAuth.authMiddleware E config h next s) = Ok tt.
Proof.
  intros Hload.
  assert (Hsec : truthy (SecretConfig.jwtSecret config) = true).
  { unfold SecretConfig.load_config in Hload.
    match type of Hload with context [check_required ?g ?ks] =>
      destruct (check_required g ks) as [[]|] eqn:Hc; [|discriminate];
      apply check_required_ok with (k := "jwtSecret") in Hc end.
    - injection Hload as <-. exact Hc.
    - unfold SecretConfig.requiredSecrets. rewrite !elem_of_cons. auto. }
  split; [exact Hsec|].
  unfold SecretAuth.authMiddleware, no_bearer.
  destruct h as [hd|]; simpl; [|reflexivity].
  destruct (negb (negb (hd =? EmptyString)%string)); simpl; [reflexivity|].
  destruct (String.prefix "Bearer " hd) eqn:Hp; simpl; [|reflexivity].
  destruct (bearer_token_defined hd Hp) as (token & -> & _).
  unfold try_catch, bind, emit, library_result, read_prop, ret, throw, set_user, send.
  destruct (SecretConfig.jwtSecret config); try discriminate.
  all: crunch; simpl; try reflexivity.
  all: match goal with H : call_async _ _ = _ |- _ =>
         apply (f_equal fst) in H; rewrite call_async_ok in H; simpl in H;
         congruence end.
Qed.

Lemma X5_loaded_secret_never_throws_witness :
  SecretConfig.load_config penv_secret = Ok Sample.secret_config
  ∧ truthy (SecretConfig.jwtSecret Sample.secret_config) = true
  ∧ fst (SecretAuth.authMiddleware Sample.env Sample.secret_config
           (Some "Bearer forged") (ret tt) (fresh ∅)) = Ok tt.
Proof.
  split; [reflexivity|].
  apply (X5_loaded_secret_never_throws Sample.env penv_secret Sample.secret_config
           (Some "Bearer forged") (ret tt) (fresh ∅)).
  reflexivity.
Defined.

(* ===================================================================== *)
(** ** What the routes touch *)
(* ===================================================================== *)


Lemma post_contact_statuses (E : Env) (config : Config) (req : Request) (s : St) :
  res s = None →
  sent_status (snd (post_contact E config req s))
  ∈ [None; Some 400; Some 404; Some 500; Some 201].
Proof.
  intros Hnone.
  unfold post_contact, user_id, sent_status.
  unfold try_catch, bind, emit, axios_result, read_prop, ret, throw, send, get_user.
  destruct (prop (req_body req) "email") as [em|]; simpl;
    [|rewrite Hnone; simpl; rewrite !elem_of_cons; auto].
  destruct (truthy em); simpl; [|rewrite !elem_of_cons; auto].
  destruct (provider E _ _) as [|code data]; simpl; [rewrite !elem_of_cons; auto 6|].
  destruct ((200 <=? code)%Z && (code <? 300)%Z)%bool; simpl.
  2:{ destruct (code =? 404)%Z; simpl; rewrite !elem_of_cons; auto 6. }
  destruct (user s) as [c|]; simpl; [|rewrite !elem_of_cons; auto 6].
  match goal with |- context [addContactToAddressBook E ?o ?c ?st] =>
    destruct (addContactToAddressBook E o c st) as [[[]|e] s1]; simpl;
    [|destruct (is_axios_404 e); simpl]
  end; rewrite !elem_of_cons; auto 7.
Qed.

Lemma get_address_book_statuses (E : Env) (s : St) :
  sent_status (snd (get_address_book E s)) ∈ [Some 200; Some 500].
Proof.
  unfold get_address_book, user_id, sent_status.
  unfold try_catch, bind, get_user, ret, throw, send, emit.
  destruct (user s) as [c|]; simpl; [|rewrite !elem_of_cons; auto].
  destruct (getUserAddressBook E (id c) s) as [[l|e] s']; simpl;
    rewrite !elem_of_cons; auto.
Qed.


(** X6. A 401 on either route of the JWKS generation comes from the gate
    alone: the store is unchanged, no look-up and no store call was made,
    and no identity is attached. *)
Theorem X6_unauthorized_touches_nothing (E : Env) (config : Config) (req : Request)
    (d : Db) :
  (sent_status (snd (route_post E config req (fresh d))) = Some 401 →
   store_untouched d (snd (route_post E config req (fresh d)))
   ∧ user (snd (route_post E config req (fresh d))) = None)
  ∧ (sent_status (snd (route_get E req (fresh d))) = Some 401 →
     store_untouched d (snd (route_get E req (fresh d)))
     ∧ user (snd (route_get E req (fresh d))) = None).
Proof.
  assert (Hnil : ∀ ev : Event, ev ∈ [] →
            is_lookup ev = false ∧ is_write ev = false ∧ is_read ev = false).
  { intros ev Hev. by apply elem_of_nil in Hev. }
  assert (Htwo : ∀ t e (ev : Event),
            ev ∈ [EvVerify t; EvLog "[AUTH] JWT validation error:" (Some e)] →
            is_lookup ev = false ∧ is_write ev = false ∧ is_read ev = false).
  { intros t e ev Hev. rewrite !elem_of_cons in Hev.
    destruct Hev as [->|[->|Hev]]; [done|done|by apply elem_of_nil in Hev]. }
  split.
  - unfold route_post.
    destruct (jwks_gate_cases E (authorization req) (post_contact E config req) (fresh d))
      as [[b ->]|[(token & e & _ & ->)|(token & c & _ & ->)]]; simpl.
    + intros _. split; [split; [done|exact Hnil]|done].
    + intros _. split; [split; [done|apply Htwo]|done].
    + match goal with |- context [call_async _ ?st] => set (st1 := st) end.
      unfold sent_status.
      destruct (call_async_proj (post_contact E config req) st1) as (_ & -> & _).
      pose proof (post_contact_statuses E config req st1 eq_refl) as Hs.
      unfold sent_status in Hs. intros H401. rewrite H401 in Hs.
      rewrite !elem_of_cons, elem_of_nil in Hs. intuition discriminate.
  - unfold route_get.
    destruct (jwks_gate_cases E (authorization req) (get_address_book E) (fresh d))
      as [[b ->]|[(token & e & _ & ->)|(token & c & _ & ->)]]; simpl.
    + intros _. split; [split; [done|exact Hnil]|done].
    + intros _. split; [split; [done|apply Htwo]|done].
    + match goal with |- context [call_async _ ?st] => set (st1 := st) end.
      unfold sent_status.
      destruct (call_async_proj (get_address_book E) st1) as (_ & -> & _).
      pose proof (get_address_book_statuses E st1) as Hs.
      unfold sent_status in Hs. intros H401. rewrite H401 in Hs.
      rewrite !elem_of_cons, elem_of_nil in Hs. intuition discriminate.
Qed.



(* ===================================================================== *)
(** ** Reading and writing the address book *)
(* ===================================================================== *)

Lemma map_as_fmap {A B} (f : A → B) (l : list A) : map f l = f <$> l.
Proof. induction l as [|x l IH]; [done|]. cbn. by rewrite IH. Qed.

(** X8. For an attached identity with a valid id and the store answering, the
    GET handler answers 200 with one contact per stored document of the
    caller's collection; an empty collection gives the empty array. *)
Theorem X8_get_lists_every_document (E : Env) (s : St) (c : Contact) (owner : string) :
  user s = Some c → id c = JStr owner → valid_doc_id owner → store_up E = true →
  ∃ contacts,
    res (snd (get_address_book E s)) = Some (mkResponse 200 (JArr contacts))
    ∧ length contacts = size (Firestore.docs (db s) (book_of owner))
    ∧ (∀ cid data, Firestore.docs (db s) (book_of owner) !! cid = Some data →
         contact_obj (doc_to_contact data) ∈ contacts)
    ∧ (Firestore.docs (db s) (book_of owner) = ∅ → contacts = []).
Proof.
  intros Hu Hid Hv Hup.
  assert (Hbook : address_book (id c) = Ok (book_of owner))
    by (rewrite Hid; by apply address_book_plain).
  eexists. split; [by apply (get_address_book_200 E s c (book_of owner))|].
  split; [|split].
  - rewrite !length_map. apply length_map_to_list.
  - intros cid data Hd.
    apply list_elem_of_In. apply in_map, in_map.
    apply (in_map snd _ (cid, data)). apply list_elem_of_In.
    by apply elem_of_map_to_list.
  - intros ->. by rewrite map_to_list_empty.
Qed.

Lemma X8_get_lists_every_document_witness :
  let s := mkSt ∅ None (Some Sample.me) [] in
  user s = Some Sample.me ∧ id Sample.me = JStr "u1" ∧ valid_doc_id "u1"
  ∧ store_up Sample.env = true
  ∧ res (snd (get_address_book Sample.env s)) = Some (mkResponse 200 (JArr [])).
Proof.
  intros s.
  assert (Hv : valid_doc_id "u1") by (split; [discriminate|reflexivity]).
  split; [reflexivity|]. split; [reflexivity|]. split; [exact Hv|].
  split; [reflexivity|].
  destruct (X8_get_lists_every_document Sample.env s Sample.me "u1"
              eq_refl eq_refl Hv eq_refl) as (contacts & Hres & _ & _ & Hempty).
  rewrite Hres, (Hempty eq_refl). reflexivity.
Defined.

(** X9. When the store does not answer, both GET handlers answer 500 with
    their fixed message and leave the store as it was. *)
Theorem X9_get_answers_500_when_store_is_down (E : Env) (s : St) :
  store_up E = false →
  res (snd (get_address_book E s))
  = Some (mkResponse 500 (error_body "An internal error occurred."))
  ∧ res (snd (SecretMain.get_address_book E s))
    = Some (mkResponse 500 (error_body
              "An internal error occurred while retrieving the address book."))
  ∧ db (snd (get_address_book E s)) = db s
  ∧ db (snd (SecretMain.get_address_book E s)) = db s.
Proof.
  intros Hdown.
  unfold get_address_book, SecretMain.get_address_book, getUserAddressBook,
    Firestore.get, Firestore.doc, user_id.
  autounfold with monad_ops. rewrite Hdown.
  crunch; simpl; auto.
Qed.

Lemma X9_get_answers_500_when_store_is_down_witness :
  store_up Sample.env_store_down = false
  ∧ res (snd (get_address_book Sample.env_store_down
                (mkSt ∅ None (Some Sample.me) [])))
    = Some (mkResponse 500 (error_body "An internal error occurred.")).
Proof.
  split; [reflexivity|].
  apply (X9_get_answers_500_when_store_is_down Sample.env_store_down
           (mkSt ∅ None (Some Sample.me) []) eq_refl).
Defined.

(** X10. [addContactToAddressBook] changes at most the document its
    reference resolves to, the path
    [authorized_users/{ownerId}/address_book/{contactToAdd.id}] split at the
    slashes: every other document, of that collection or of another, reads
    as before. *)
Theorem X10_add_touches_one_document (E : Env) (ownerId c : JsValue) (s : St)
    (collectionPath : list string) (key : string) :
  (∀ book raw path,
     address_book ownerId = Ok book → prop c "id" = Some (JStr raw) →
     Firestore.doc book (JStr raw) = Ok path →
     collectionPath ≠ Firestore.parent path ∨ key ≠ Firestore.id path) →
  Firestore.docs (db (snd (addContactToAddressBook E ownerId c s))) collectionPath !! key
  = Firestore.docs (db s) collectionPath !! key.
Proof.
  intros Hother.
  destruct (addContactToAddressBook E ownerId c s) as [[[]|err] s'] eqn:H; simpl.
  - apply add_ok in H as (book & raw & path & a & e & Hb & Hc & Hp & _ & _ & _ & _ & ->).
    simpl.
    destruct (decide (Firestore.parent path = collectionPath)) as [<-|Hne].
    + rewrite docs_written. rewrite lookup_insert_ne; [done|].
      intros <-. destruct (Hother book raw path Hb Hc Hp); congruence.
    + by rewrite docs_written_ne.
  - apply add_throw in H as (-> & _). reflexivity.
Qed.

Lemma X10_add_touches_one_document_witness :
  let s := snd (addContactToAddressBook Sample.env (JStr "u1") Sample.contact_a
                  (fresh ∅)) in
  (∀ book raw path,
     address_book (JStr "u1") = Ok book →
     prop Sample.contact_nested "id" = Some (JStr raw) →
     Firestore.doc book (JStr raw) = Ok path →
     book_of "u1" ≠ Firestore.parent path ∨ "z" ≠ Firestore.id path)
  ∧ Firestore.docs
      (db (snd (addContactToAddressBook Sample.env (JStr "u1") Sample.contact_nested s)))
      (book_of "u1") !! "z"
    = Firestore.docs (db s) (book_of "u1") !! "z".
Proof.
  intros s.
  assert (H : ∀ book raw path,
            address_book (JStr "u1") = Ok book →
            prop Sample.contact_nested "id" = Some (JStr raw) →
            Firestore.doc book (JStr raw) = Ok path →
            book_of "u1" ≠ Firestore.parent path ∨ "z" ≠ Firestore.id path).
  { intros book raw path Hb Hc Hp.
    vm_compute in Hb. injection Hb as <-.
    vm_compute in Hc. injection Hc as <-.
    vm_compute in Hp. injection Hp as <-.
    left. vm_compute. discriminate. }
  split; [exact H|].
  exact (X10_add_touches_one_document Sample.env (JStr "u1") Sample.contact_nested s
           (book_of "u1") "z" H).
Defined.




(* ===================================================================== *)
(** ** The add-contact handlers *)
(* ===================================================================== *)

Lemma post_contact_db_owner (E : Env) (config : Config) (req : Request) (s : St) :
  db (snd (post_contact E config req s)) = db s
  ∨ ∃ u c st, user s = Some u ∧ db st = db s
      ∧ db (snd (post_contact E config req s))
        = db (snd (addContactToAddressBook E (id u) c st)).
Proof.
  unfold post_contact, user_id.
  unfold try_catch, bind, emit, axios_result, read_prop, ret, throw, send, get_user.
  destruct (prop (req_body req) "email") as [em|]; simpl; [|by left].
  destruct (truthy em); simpl; [|by left].
  destruct (provider E _ _) as [|code data]; simpl; [by left|].
  destruct ((200 <=? code)%Z && (code <? 300)%Z)%bool; simpl.
  2:{ destruct (code =? 404)%Z; simpl; by left. }
  destruct (user s) as [c|] eqn:Hu; simpl; [|by left].
  right.
  match goal with |- context [addContactToAddressBook E ?o ?d ?st] =>
    exists c, d, st; split; [reflexivity|]; split; [reflexivity|];
    destruct (addContactToAddressBook E o d st) as [[[]|e] s1]; simpl;
    [reflexivity | destruct (is_axios_404 e); reflexivity]
  end.
Qed.

Lemma secret_post_contact_db_owner (E : Env) (config : SecretConfig.Config)
    (req : Request) (s : St) :
  db (snd (SecretMain.post_contact E config req s)) = db s
  ∨ ∃ u c st, user s = Some u ∧ db st = db s
      ∧ db (snd (SecretMain.post_contact E config req s))
        = db (snd (addContactToAddressBook E (id u) c st)).
Proof.
  unfold SecretMain.post_contact, user_id.
  unfold try_catch, bind, emit, axios_result, read_prop, ret, throw, send, get_user.
  destruct (prop (req_body req) "email") as [em|]; simpl; [|by left].
  destruct (truthy em); simpl; [|by left].
  destruct (provider E _ _) as [|code data]; simpl; [by left|].
  destruct ((200 <=? code)%Z && (code <? 300)%Z)%bool; simpl.
  2:{ destruct (code =? 404)%Z; simpl; by left. }
  destruct (user s) as [c|] eqn:Hu; simpl; [|by left].
  right.
  match goal with |- context [addContactToAddressBook E ?o ?d ?st] =>
    exists c, d, st; split; [reflexivity|]; split; [reflexivity|];
    destruct (addContactToAddressBook E o d st) as [[[]|e] s1]; simpl;
    [reflexivity | destruct (is_axios_404 e); reflexivity]
  end.
Qed.

Lemma add_other_collection (E : Env) (ownerId c : JsValue) (s : St)
    (collectionPath : list string) :
  (∀ book, address_book ownerId = Ok book → ¬ book `prefix_of` collectionPath) →
  Firestore.docs (db (snd (addContactToAddressBook E ownerId c s))) collectionPath
  = Firestore.docs (db s) collectionPath.
Proof.
  intros Hother.
  destruct (addContactToAddressBook E ownerId c s) as [[[]|err] s'] eqn:H; simpl.
  - apply add_ok_segments in H as (book & raw & a & e & Hb & _ & _ & _ & _ & ->).
    apply docs_written_ne. intros <-. apply (Hother book Hb). by eexists.
  - apply add_throw in H as (-> & _). reflexivity.
Qed.

(** X11. The add-contact handlers write only below the address book of the
    caller: a collection whose path does not extend the path of the address
    book of the attached identity is left as it was. *)
Theorem X11_post_writes_only_to_the_caller (E : Env) (config : Config)
    (sconfig : SecretConfig.Config) (req : Request) (s : St)
    (collectionPath : list string) :
  (∀ u book, user s = Some u → address_book (id u) = Ok book →
             ¬ book `prefix_of` collectionPath) →
  Firestore.docs (db (snd (post_contact E config req s))) collectionPath
  = Firestore.docs (db s) collectionPath
  ∧ Firestore.docs (db (snd (SecretMain.post_contact E sconfig req s))) collectionPath
    = Firestore.docs (db s) collectionPath.
Proof.
  intros Hother. split.
  - destruct (post_contact_db_owner E config req s)
      as [->|(u & c & st & Hu & Hst & ->)]; [done|].
    rewrite add_other_collection by eauto. by rewrite Hst.
  - destruct (secret_post_contact_db_owner E sconfig req s)
      as [->|(u & c & st & Hu & Hst & ->)]; [done|].
    rewrite add_other_collection by eauto. by rewrite Hst.
Qed.

Lemma X11_post_writes_only_to_the_caller_witness :
  let req := Sample.request (Some "Bearer good") (JObj [("email", JStr "a@example.com")]) in
  let s := mkSt ∅ None (Some Sample.me) [] in
  (∀ u book, user s = Some u → address_book (id u) = Ok book →
             ¬ book `prefix_of` book_of "u2")
  ∧ Firestore.docs (db (snd (post_contact Sample.env Sample.config req s)))
      (book_of "u2")
    = Firestore.docs (db s) (book_of "u2").
Proof.
  intros req s.
  assert (H : ∀ u book, user s = Some u → address_book (id u) = Ok book →
                        ¬ book `prefix_of` book_of "u2").
  { intros u book [= <-] Hb. vm_compute in Hb. injection Hb as <-.
    intros [k Hk]. discriminate. }
  split; [exact H|].
  apply (X11_post_writes_only_to_the_caller Sample.env Sample.config
           Sample.secret_config req s (book_of "u2") H).
Defined.

(** X13. A 201 from the add-contact handler means exactly two outside calls,
    in this order: one look-up carrying the internal API key, then one write
    of the three-field document under the caller and the contact's id. *)
Theorem X13_created_means_one_lookup_one_write (E : Env) (config : Config)
    (req : Request) (s : St) (b : JsValue) :
  res s = None →
  res (snd (post_contact E config req s)) = Some (mkResponse 201 b) →
  ∃ em u cid a e,
    prop (req_body req) "email" = Some em ∧ user s = Some u
    ∧ prop b "id" = Some (JStr cid) ∧ prop b "alias" = Some a
    ∧ prop b "email" = Some e
    ∧ trace (snd (post_contact E config req s))
      = trace s ++ [EvLookup (mkUrl (identityServiceUrl config) em)
                      [("X-Internal-API-Key", internalApiKey config)];
                    EvStoreWrite (id u) (JStr cid) (JObj (doc_of cid a e))].
Proof.
  intros Hnone H201.
  destruct (post_contact_201 E config req s b Hnone H201)
    as (em & u & code & s1 & Hem & _ & _ & Hu & Hadd & ->).
  apply add_ok in Hadd
    as (book & cid & path & a & e & _ & Hbid & _ & Hba & Hbe & _ & _ & ->).
  simpl. exists em, u, cid, a, e. repeat split; try assumption.
  by rewrite <- app_assoc.
Qed.

Lemma X13_created_means_one_lookup_one_write_witness :
  let req := Sample.request (Some "Bearer good") (JObj [("email", JStr "a@example.com")]) in
  let s := mkSt ∅ None (Some Sample.me) [] in
  res s = None
  ∧ res (snd (post_contact Sample.env Sample.config req s))
    = Some (mkResponse 201 Sample.contact_a)
  ∧ ∃ em u cid a e,
      prop (req_body req) "email" = Some em ∧ user s = Some u
      ∧ prop Sample.contact_a "id" = Some (JStr cid)
      ∧ prop Sample.contact_a "alias" = Some a
      ∧ prop Sample.contact_a "email" = Some e
      ∧ trace (snd (post_contact Sample.env Sample.config req s))
        = trace s ++ [EvLookup (mkUrl (identityServiceUrl Sample.config) em)
                        [("X-Internal-API-Key", internalApiKey Sample.config)];
                      EvStoreWrite (id u) (JStr cid) (JObj (doc_of cid a e))].
Proof.
  intros req s. split; [reflexivity|]. split; [reflexivity|].
  apply (X13_created_means_one_lookup_one_write Sample.env Sample.config req s
           Sample.contact_a); reflexivity.
Defined.

(** X14. Every look-up the add-contact handler makes goes to the configured
    provider for the (truthy) email of the body, and carries one header: the
    internal API key in the JWKS generation, the caller's own
    [Authorization] header in the shared-secret generation. *)
Theorem X14_lookup_credentials (E : Env) (config : Config)
    (sconfig : SecretConfig.Config) (req : Request) (s : St) :
  (∃ evs, trace (snd (post_contact E config req s)) = trace s ++ evs
     ∧ ∀ url headers, EvLookup url headers ∈ evs →
         headers = [("X-Internal-API-Key", internalApiKey config)]
         ∧ url_base url = identityServiceUrl config
         ∧ prop (req_body req) "email" = Some (url_email url)
         ∧ truthy (url_email url) = true)
  ∧ (∃ evs, trace (snd (SecretMain.post_contact E sconfig req s)) = trace s ++ evs
       ∧ ∀ url headers, EvLookup url headers ∈ evs →
           headers = [("Authorization",
                       from_option JStr JUndefined (authorization req))]
           ∧ url_base url = SecretConfig.identityServiceUrl sconfig
           ∧ prop (req_body req) "email" = Some (url_email url)
           ∧ truthy (url_email url) = true).
Proof.
  split.
  - unfold post_contact, addContactToAddressBook, Firestore.set, Firestore.doc.
    autounfold with monad_ops.
    crunch; simpl; rewrite <- ?app_assoc;
      (first [ exists []; split; [by rewrite app_nil_r|]
             | eexists; split; [reflexivity|] ]);
      simpl; intros url headers Hev; revert Hev; rewrite ?elem_of_cons, elem_of_nil;
      intros Hev; repeat (destruct Hev as [Hev|Hev]);
      try discriminate; try contradiction;
      injection Hev as -> ->; simpl; repeat split; auto;
      by apply negb_false_iff.
  - unfold SecretMain.post_contact, addContactToAddressBook, Firestore.set,
      Firestore.doc.
    autounfold with monad_ops.
    crunch; simpl; rewrite <- ?app_assoc;
      (first [ exists []; split; [by rewrite app_nil_r|]
             | eexists; split; [reflexivity|] ]);
      simpl; intros url headers Hev; revert Hev; rewrite ?elem_of_cons, elem_of_nil;
      intros Hev; repeat (destruct Hev as [Hev|Hev]);
      try discriminate; try contradiction;
      injection Hev as -> ->; simpl; repeat split; auto;
      by apply negb_false_iff.
Qed.

(** X15. When [req.body] is [undefined] or [null], the JWKS handler throws a
    TypeError before sending or calling anything (the destructuring is
    outside its [try]); the shared-secret handler, which destructures inside
    the [try], answers 500. *)
Theorem X15_missing_body (E : Env) (config : Config) (sconfig : SecretConfig.Config)
    (req : Request) (s : St) :
  req_body req = JUndefined ∨ req_body req = JNull →
  (∃ msg, post_contact E config req s = (Throw (TypeError msg), s))
  ∧ (∃ e, SecretMain.post_contact E sconfig req s
          = (Ok tt, mkSt (db s)
                      (Some (mkResponse 500 (error_body
                         "An internal error occurred while adding the contact.")))
                      (user s)
                      (trace s ++ [EvLog "Failed to add contact:" (Some (TypeError e))]))).
Proof.
  intros Hb.
  unfold post_contact, SecretMain.post_contact.
  autounfold with monad_ops.
  destruct Hb as [-> | ->]; simpl; split; eexists; reflexivity.
Qed.

Lemma X15_missing_body_witness :
  let req := Sample.request (Some "Bearer good") JUndefined in
  (req_body req = JUndefined ∨ req_body req = JNull)
  ∧ res (snd (route_post Sample.env Sample.config req (fresh ∅))) = None
  ∧ sent_status (snd (SecretMain.route_post Sample.env Sample.secret_config req
                        (fresh ∅))) = Some 500.
Proof.
  intros req.
  assert (H : req_body req = JUndefined ∨ req_body req = JNull) by (left; reflexivity).
  split; [exact H|].
  destruct (X15_missing_body Sample.env Sample.config Sample.secret_config req
              (mkSt ∅ None (Some Sample.me) [EvVerify "good"]) H)
    as [[msg Hjwks] [e Hsecret]].
  split.
  - change (route_post Sample.env Sample.config req (fresh ∅))
      with (call_async (post_contact Sample.env Sample.config req)
              (mkSt ∅ None (Some Sample.me) [EvVerify "good"])).
    unfold call_async. rewrite Hjwks. reflexivity.
  - change (SecretMain.route_post Sample.env Sample.secret_config req (fresh ∅))
      with (call_async (SecretMain.post_contact Sample.env Sample.secret_config req)
              (mkSt ∅ None (Some Sample.me) [EvVerify "good"])).
    unfold call_async. rewrite Hsecret. reflexivity.
Defined.

(* ===================================================================== *)
(** ** Repeated requests, distinct ids *)
(* ===================================================================== *)

Lemma add_two_runs (E : Env) (ownerV c : JsValue) (s t : St) :
  (∃ e e', fst (addContactToAddressBook E ownerV c s) = Throw e
           ∧ fst (addContactToAddressBook E ownerV c t) = Throw e'
           ∧ db (snd (addContactToAddressBook E ownerV c s)) = db s
           ∧ db (snd (addContactToAddressBook E ownerV c t)) = db t)
  ∨ ∃ book key data,
      fst (addContactToAddressBook E ownerV c s) = Ok tt
      ∧ fst (addContactToAddressBook E ownerV c t) = Ok tt
      ∧ db (snd (addContactToAddressBook E ownerV c s)) = written (db s) book key data
      ∧ db (snd (addContactToAddressBook E ownerV c t)) = written (db t) book key data.
Proof.
  destruct (addContactToAddressBook E ownerV c s) as [[[]|e] s1] eqn:Hs;
    destruct (addContactToAddressBook E ownerV c t) as [[[]|e'] t1] eqn:Ht; simpl.
  - right.
    apply add_ok in Hs as (book & raw & path & a & em & Hb & Hc & Hp & Ha & He & _ & _ & ->).
    apply add_ok in Ht
      as (book' & raw' & path' & a' & em' & Hb' & Hc' & Hp' & Ha' & He' & _ & _ & ->).
    rewrite Hc in Hc'. injection Hc' as <-.
    rewrite Hb in Hb'. injection Hb' as <-.
    rewrite Hp in Hp'. injection Hp' as <-.
    rewrite Ha in Ha'. injection Ha' as <-.
    rewrite He in He'. injection He' as <-.
    simpl. eexists _, _, _. repeat split; reflexivity.
  - destruct (add_ok_elsewhere _ _ _ _ _ t Hs) as [t' Ht']. congruence.
  - destruct (add_ok_elsewhere _ _ _ _ _ s Ht) as [s' Hs']. congruence.
  - left. apply add_throw in Hs as (-> & _). apply add_throw in Ht as (-> & _).
    eauto 10.
Qed.

Lemma post_contact_two_runs (E : Env) (config : Config) (req : Request) (s t : St) :
  user s = user t →
  (db (snd (post_contact E config req s)) = db s
   ∧ db (snd (post_contact E config req t)) = db t)
  ∨ ∃ book key data,
      db (snd (post_contact E config req s)) = written (db s) book key data
      ∧ db (snd (post_contact E config req t)) = written (db t) book key data.
Proof.
  intros Hu.
  unfold post_contact, user_id.
  unfold try_catch, bind, emit, axios_result, read_prop, ret, throw, send, get_user.
  destruct (prop (req_body req) "email") as [em|]; simpl; [|by left].
  destruct (truthy em); simpl; [|by left].
  destruct (provider E _ _) as [|code data]; simpl; [by left|].
  destruct ((200 <=? code)%Z && (code <? 300)%Z)%bool; simpl.
  2:{ destruct (code =? 404)%Z; simpl; by left. }
  rewrite <- Hu. destruct (user s) as [c|]; simpl; [|by left].
  match goal with
  | |- context [addContactToAddressBook E ?o ?d (mkSt (db s) ?r1 ?u1 ?t1)] =>
    match goal with
    | |- context [addContactToAddressBook E o d (mkSt (db t) ?r2 ?u2 ?t2)] =>
      set (st1 := mkSt (db s) r1 u1 t1); set (st2 := mkSt (db t) r2 u2 t2);
      destruct (add_two_runs E o d st1 st2)
        as [(e & e' & H1 & H2 & H3 & H4)|(book & key & doc & H1 & H2 & H3 & H4)];
      destruct (addContactToAddressBook E o d st1) as [o1 s1'];
      destruct (addContactToAddressBook E o d st2) as [o2 s2'];
      simpl in H1, H2, H3, H4; subst o1 o2; simpl
    end
  end.
  - left. destruct (is_axios_404 e), (is_axios_404 e'); simpl; auto.
  - right. exists book, key, doc. auto.
Qed.

Lemma jwks_gate_two_runs (E : Env) (h : option string) (next : M unit) (s t : St) :
  (db (snd (createAuthMiddleware E h next s)) = db s
   ∧ db (snd (createAuthMiddleware E h next t)) = db t)
  ∨ ∃ token c,
      createAuthMiddleware E h next s
      = call_async next (mkSt (db s) (res s) (Some c) (trace s ++ [EvVerify token]))
      ∧ createAuthMiddleware E h next t
        = call_async next (mkSt (db t) (res t) (Some c) (trace t ++ [EvVerify token])).
Proof.
  unfold createAuthMiddleware, no_bearer.
  destruct h as [hd|]; simpl; [|by left].
  destruct (negb (negb (hd =? EmptyString)%string)); simpl; [by left|].
  destruct (String.prefix "Bearer " hd) eqn:Hp; simpl; [|by left].
  destruct (bearer_token hd) as [token|] eqn:Ht; simpl; [|by left].
  destruct (negb (negb (token =? EmptyString)%string)); simpl; [by left|].
  unfold try_catch, bind, emit, library_result, read_prop, ret, throw, set_user, send.
  destruct (jwtVerify E token) as [why|payload]; simpl; [by left|].
  destruct (prop payload "sub") as [sub|]; simpl; [|by left].
  destruct (prop payload "email") as [em|]; simpl; [|by left].
  destruct (prop payload "alias") as [al|]; simpl; [|by left].
  destruct (negb (is_string sub) || negb (truthy em) || negb (truthy al)); simpl;
    [by left|].
  right. exists token, {| id := sub; email := em; alias := al |}.
  split.
  all: match goal with |- context [call_async ?n ?st] =>
    pose proof (call_async_ok n st) as Hok;
    destruct (call_async n st) as [[[]|e] s'] end; simpl in *;
    [reflexivity|discriminate].
Qed.

Lemma call_async_db (h : M unit) (s : St) :
  db (snd (call_async h s)) = db (snd (h s)).
Proof. apply call_async_proj. Qed.

(** X16. Sending the same POST again, with the outside world answering the
    same, leaves the store exactly as the first one left it. *)
Theorem X16_repeating_a_post_changes_nothing (E : Env) (config : Config)
    (req : Request) (d : Db) :
  db (snd (route_post E config req
             (fresh (db (snd (route_post E config req (fresh d)))))))
  = db (snd (route_post E config req (fresh d))).
Proof.
  unfold route_post.
  destruct (jwks_gate_two_runs E (authorization req) (post_contact E config req)
              (fresh d)
              (fresh (db (snd (createAuthMiddleware E (authorization req)
                                 (post_contact E config req) (fresh d))))))
    as [[H1 H2]|(token & c & H1 & H2)].
  - exact H2.
  - rewrite H2. clear H2. rewrite H1. clear H1. simpl.
    rewrite !call_async_db.
    set (st1 := mkSt d None (Some c) [EvVerify token]).
    destruct (post_contact_two_runs E config req st1
                (mkSt (db (snd (post_contact E config req st1))) None (Some c)
                   [EvVerify token]) eq_refl)
      as [[Ha Hb]|(o & cid & data & Ha & Hb)].
    + rewrite Hb. reflexivity.
    + rewrite Hb. simpl. rewrite Ha. apply written_written.
Qed.

Lemma doc_keyed_empty (collectionPath : list string) (key : string) (data : Doc) :
  Firestore.docs ∅ collectionPath !! key = Some data → doc_keyed key data.
Proof. unfold Firestore.docs. rewrite lookup_empty. simpl. by rewrite lookup_empty. Qed.

(** Every document of a store the service can build has the three fields,
    and is stored under the last segment of its [userId]. *)
Lemma reachable_keyed (d : Db) :
  Reachable d →
  ∀ collectionPath key data,
    Firestore.docs d collectionPath !! key = Some data → doc_keyed key data.
Proof.
  induction 1 as [|E ownerId c s _ IH]; [exact doc_keyed_empty|].
  intros collectionPath key data.
  destruct (addContactToAddressBook E ownerId c s) as [[[]|err] s'] eqn:H; simpl.
  - apply add_ok_segments in H as (book & raw & a & e & _ & _ & _ & _ & _ & ->).
    destruct (decide (book ++ removelast (Firestore.split raw) = collectionPath))
      as [<-|Hne]; [|rewrite docs_written_ne by done; apply IH].
    rewrite docs_written.
    destruct (decide (List.last (Firestore.split raw) EmptyString = key)) as [<-|Hk];
      [|rewrite lookup_insert_ne by done; apply IH].
    rewrite lookup_insert_eq. intros [= <-]. split; [reflexivity|].
    exists raw. split; reflexivity.
  - apply add_throw in H as (-> & _). apply IH.
Qed.

(** X17. In every store the service can build (the empty one, changed by
    calls of [addContactToAddressBook] only), the contacts returned by
    [getUserAddressBook] have pairwise distinct ids. *)
Theorem X17_listed_ids_are_distinct (E : Env) (userId : JsValue) (s s' : St)
    (l : list Contact) :
  Reachable (db s) →
  getUserAddressBook E userId s = (Ok l, s') →
  NoDup (map id l).
Proof.
  intros Hreach Hget.
  apply get_ok in Hget as (book & _ & _ & -> & _).
  rewrite !map_map, map_as_fmap.
  apply NoDup_fmap_2_strong; [|apply NoDup_map_to_list].
  intros [k1 d1] [k2 d2] H1 H2 Hid. simpl in Hid.
  apply elem_of_map_to_list in H1, H2.
  destruct (reachable_keyed _ Hreach _ _ _ H1) as (_ & raw1 & Hr1 & Hk1).
  destruct (reachable_keyed _ Hreach _ _ _ H2) as (_ & raw2 & Hr2 & Hk2).
  rewrite Hr1, Hr2 in Hid. injection Hid as <-.
  assert (k1 = k2) as <- by congruence.
  rewrite H1 in H2. by injection H2 as <-.
Qed.

Lemma X17_listed_ids_are_distinct_witness :
  let s := snd (addContactToAddressBook Sample.env (JStr "u1") Sample.contact_b
             (snd (addContactToAddressBook Sample.env (JStr "u1") Sample.contact_a
                     (fresh ∅)))) in
  Reachable (db s)
  ∧ ∃ l s', getUserAddressBook Sample.env (JStr "u1") s = (Ok l, s')
            ∧ length l = 2%nat ∧ NoDup (map id l).
Proof.
  intros s.
  assert (Hreach : Reachable (db s)).
  { unfold s. apply reach_add, reach_add. exact reach_empty. }
  split; [exact Hreach|].
  destruct (getUserAddressBook Sample.env (JStr "u1") s) as [o s'] eqn:Hget.
  assert (Ho : ∃ l, o = Ok l ∧ length l = 2%nat).
  { apply (f_equal fst) in Hget. simpl in Hget. subst o.
    vm_compute. eexists. split; reflexivity. }
  destruct Ho as (l & -> & Hlen).
  exists l, s'. split; [reflexivity|]. split; [exact Hlen|].
  exact (X17_listed_ids_are_distinct Sample.env (JStr "u1") s s' l Hreach Hget).
Defined.

(* ===================================================================== *)
(** ** Round trip and shape of the stored documents *)
(* ===================================================================== *)

(** X24. When a POST is answered 201 and the id of the provider's record has
    one segment (no slash but at its start or end), a following GET by the
    same caller, with the store answering, is answered 200 with a list that
    contains the contact with that record's id, email and alias. *)
Theorem X24_post_then_get_one_segment (E1 E2 : Env) (config : Config)
    (req1 req2 : Request) (d : Db) (b : JsValue) (c1 c2 : Contact) :
  res (snd (route_post E1 config req1 (fresh d))) = Some (mkResponse 201 b) →
  user (snd (route_post E1 config req1 (fresh d))) = Some c1 →
  user (snd (route_get E2 req2 (fresh (db (snd (route_post E1 config req1 (fresh d)))))))
  = Some c2 →
  id c2 = id c1 →
  store_up E2 = true →
  (∀ raw, prop b "id" = Some (JStr raw) → length (Firestore.split raw) = 1%nat) →
  ∃ url headers code i e a contacts,
    provider E1 url headers = Responded code b
    ∧ prop b "id" = Some i ∧ prop b "email" = Some e ∧ prop b "alias" = Some a
    ∧ res (snd (route_get E2 req2
                  (fresh (db (snd (route_post E1 config req1 (fresh d)))))))
      = Some (mkResponse 200 (JArr contacts))
    ∧ JObj [("id", i); ("email", e); ("alias", a)] ∈ contacts.
Proof.
  intros H201 Hu1 Hu2 Hid Hup Hone. revert H201 Hu1 Hu2. unfold route_post.
  destruct (jwks_gate_cases E1 (authorization req1) (post_contact E1 config req1)
              (fresh d)) as [[b1 ->]|[(t1 & e1 & _ & ->)|(t1 & c & _ & ->)]];
    simpl; try discriminate.
  match goal with |- context [call_async _ ?st] => set (st1 := st) end.
  destruct (call_async_proj (post_contact E1 config req1) st1) as (-> & -> & ->).
  intros H201.
  destruct (post_contact_201 E1 config req1 st1 b eq_refl H201)
    as (em & c0 & code & s1 & Hem & Htr & Hprov & Hc0 & Hadd & ->).
  simpl in Hc0. injection Hc0 as <-. simpl.
  destruct (add_ok_segments _ _ _ _ _ Hadd)
    as (book & raw & a & e & Hbook & Hbid & _ & Hba & Hbe & Hdb).
  apply add_ok in Hadd as (book' & raw' & path & a' & e' & _ & _ & _ & _ & _ & _ & _ & ->).
  cbn [db user] in Hdb |- *. rewrite Hdb. simpl. intros [= <-].
  specialize (Hone raw Hbid).
  destruct (Firestore.split raw) as [|key [|? ?]]; try discriminate.
  cbn [removelast List.last]. rewrite app_nil_r.
  unfold route_get.
  destruct (jwks_gate_cases E2 (authorization req2) (get_address_book E2)
              (fresh (written d book key (doc_of raw a e))))
    as [[b2 ->]|[(t2 & e2 & _ & ->)|(t2 & c' & _ & ->)]];
    simpl; try discriminate.
  match goal with |- context [call_async _ ?st] => set (st2 := st) end.
  destruct (call_async_proj (get_address_book E2) st2) as (_ & -> & ->).
  rewrite get_address_book_keeps_user. simpl. intros [= ->].
  exists (mkUrl (identityServiceUrl config) em),
    [("X-Internal-API-Key", internalApiKey config)], code, (JStr raw), e, a.
  eexists. repeat split; try eassumption.
  - apply (get_address_book_200 E2 st2 c2 book); auto. by rewrite Hid.
  - simpl. apply (listed_after_write d book key (doc_of raw a e)).
Qed.

Lemma X24_post_then_get_one_segment_witness :
  let post := Sample.request (Some "Bearer good") (JObj [("email", JStr "a@example.com")]) in
  let get := Sample.request (Some "Bearer good") JUndefined in
  let s1 := snd (route_post Sample.env Sample.config post (fresh ∅)) in
  let s2 := snd (route_get Sample.env get (fresh (db s1))) in
  res s1 = Some (mkResponse 201 Sample.contact_a)
  ∧ user s1 = Some Sample.me ∧ user s2 = Some Sample.me ∧ store_up Sample.env = true
  ∧ (∀ raw, prop Sample.contact_a "id" = Some (JStr raw) →
            length (Firestore.split raw) = 1%nat)
  ∧ ∃ url headers code i e a contacts,
      provider Sample.env url headers = Responded code Sample.contact_a
      ∧ prop Sample.contact_a "id" = Some i
      ∧ prop Sample.contact_a "email" = Some e
      ∧ prop Sample.contact_a "alias" = Some a
      ∧ res s2 = Some (mkResponse 200 (JArr contacts))
      ∧ JObj [("id", i); ("email", e); ("alias", a)] ∈ contacts.
Proof.
  intros post get s1 s2.
  assert (Hone : ∀ raw, prop Sample.contact_a "id" = Some (JStr raw) →
                        length (Firestore.split raw) = 1%nat).
  { intros raw Hraw. vm_compute in Hraw. injection Hraw as <-. reflexivity. }
  split; [reflexivity|]. split; [reflexivity|]. split; [reflexivity|].
  split; [reflexivity|]. split; [exact Hone|].
  apply (X24_post_then_get_one_segment Sample.env Sample.env Sample.config post get ∅
           Sample.contact_a Sample.me Sample.me);
    [reflexivity|reflexivity|reflexivity|reflexivity|reflexivity|exact Hone].
Defined.

Lemma route_post_reachable (E : Env) (config : Config) (req : Request) (d : Db) :
  Reachable d → Reachable (db (snd (route_post E config req (fresh d)))).
Proof.
  intros Hd. unfold route_post.
  destruct (jwks_gate_cases E (authorization req) (post_contact E config req) (fresh d))
    as [[b ->]|[(token & e & _ & ->)|(token & c & _ & ->)]]; simpl; try exact Hd.
  rewrite call_async_db.
  match goal with |- context [post_contact E config req ?st] =>
    destruct (post_contact_db E config req st) as [->|(o & c' & st' & Hst & ->)] end;
    [exact Hd|].
  apply reach_add. rewrite Hst. exact Hd.
Qed.

(** X25. Whatever POSTs the service has answered, each stored document has
    exactly the fields alias, email and userId, and is stored under the last
    segment of its userId. *)
Theorem X25_stored_documents_after_posts (E : Env) (config : Config) (req : Request)
    (d : Db) (collectionPath : list string) (key : string) (data : Doc) :
  Reachable d →
  Firestore.docs (db (snd (route_post E config req (fresh d)))) collectionPath !! key
  = Some data →
  Reachable (db (snd (route_post E config req (fresh d)))) ∧ doc_keyed key data.
Proof.
  intros Hd Hdoc.
  pose proof (route_post_reachable E config req d Hd) as Hr.
  split; [exact Hr|]. exact (reachable_keyed _ Hr _ _ _ Hdoc).
Qed.

Lemma X25_stored_documents_after_posts_witness :
  let req := Sample.request (Some "Bearer good") (JObj [("email", JStr "n@example.com")]) in
  let data := [("alias", JStr "N"); ("email", JStr "n@example.com");
               ("userId", JStr "x/y/z")] in
  Reachable ∅
  ∧ Firestore.docs (db (snd (route_post Sample.env Sample.config req (fresh ∅))))
      ["authorized_users"; "u1"; "address_book"; "x"; "y"] !! "z" = Some data
  ∧ doc_keyed "z" data.
Proof.
  intros req data.
  assert (Hdoc : Firestore.docs
                   (db (snd (route_post Sample.env Sample.config req (fresh ∅))))
                   ["authorized_users"; "u1"; "address_book"; "x"; "y"] !! "z"
                 = Some data) by (vm_compute; reflexivity).
  split; [exact reach_empty|]. split; [exact Hdoc|].
  exact (proj2 (X25_stored_documents_after_posts Sample.env Sample.config req ∅
                  _ _ _ reach_empty Hdoc)).
Defined.

(* ===================================================================== *)
(** ** The algorithm check and start-up *)
(* ===================================================================== *)

Lemma algorithms_okb_spec (v : JsValue) : algorithms_okb v = true ↔ algorithms_ok v.
Proof.
  unfold algorithms_ok. split.
  - destruct v; simpl; try discriminate.
    + intros H. right. eauto.
    + intros H. left. eexists. split; [reflexivity|]. by apply array_includes_elem.
  - intros [(xs & -> & Hin)|(str & -> & Hs)]; simpl; [|exact Hs].
    by apply array_includes_elem.
Qed.

Lemma includes_nonempty (str : string) :
  string_includes "RS256" str = true → str ≠ EmptyString.
Proof. intros H ->. discriminate. Qed.

Lemma check_algorithms_spec (v : JsValue) (s : St) :
  snd (check_algorithms v s) = s
  ∧ (fst (check_algorithms v s) = Ok tt ↔ algorithms_okb v = true).
Proof.
  unfold check_algorithms, requiredAlg, ret, throw.
  destruct v as [| |b|q|str|xs|fs]; simpl; try (split; [reflexivity|split; discriminate]).
  - destruct b; simpl; split; try reflexivity; split; discriminate.
  - destruct (negb (Qeq_bool q 0)); simpl; split; try reflexivity; split; discriminate.
  - destruct str as [|c str]; [split; [reflexivity|split; discriminate]|].
    cbn [String.eqb negb].
    destruct (string_includes "RS256" (String c str)); simpl;
      split; try reflexivity; split; auto; discriminate.
  - destruct (array_includes xs "RS256"); simpl;
      split; try reflexivity; split; auto; discriminate.
Qed.

(** X18. The algorithm check passes exactly for an array that holds the string
    RS256 and for a string that contains RS256; any other value of the
    metadata field throws. The check changes no state. *)
Theorem X18_algorithm_check_accepts_exactly (v : JsValue) (s : St) :
  (fst (check_algorithms v s) = Ok tt ↔ algorithms_ok v)
  ∧ snd (check_algorithms v s) = s.
Proof.
  destruct (check_algorithms_spec v s) as [Hs Hok].
  split; [|exact Hs]. rewrite Hok. apply algorithms_okb_spec.
Qed.




Lemma start_exit_or_listen (E : Env) (config : Config) :
  fst (startServer E config (fresh ∅)) = Ok tt
  ∧ (serving (snd (startServer E config (fresh ∅)))
     ∨ ∃ evs e, trace (snd (startServer E config (fresh ∅)))
                = evs ++ [EvLog "FATAL: SERVER FAILED TO START" (Some e); EvExit 1]).
Proof.
  unfold startServer, start_body, serving.
  unfold try_catch, bind, emit, axios_result, read_prop, ret, throw.
  repeat match goal with
  | |- context [check_algorithms ?a ?st] =>
      destruct (check_algorithms_spec a st) as [Hs _];
      destruct (check_algorithms a st) as [[[]|e] st'] eqn:Hca; simpl in Hs; subst st'
  | |- context [match ?x with _ => _ end] =>
      lazymatch x with
      | context [match _ with _ => _ end] => fail
      | context [check_algorithms] => fail
      | _ => destruct x eqn:?
      end; simpl
  end; simpl; (split; [reflexivity|]).
  all: first [ left; eexists; rewrite !elem_of_cons; auto 6; fail
             | right; eexists [], _; reflexivity
             | right; eexists [_], _; reflexivity
             | right; eexists [_; _], _; reflexivity ].
Qed.


(* ===================================================================== *)
(** ** Loading the configuration *)
(* ===================================================================== *)

Lemma truthy_env_var (penv : gmap string string) (name : string) :
  truthy (env_var penv name) = true ↔ ∃ v, present penv name v.
Proof.
  unfold env_var, present. destruct (penv !! name) as [v|]; simpl.
  - destruct (String.eqb_spec v EmptyString) as [->|Hne]; simpl.
    + split; [discriminate|]. intros (v & [= <-] & Hv). done.
    + split; [eauto|done].
  - split; [discriminate|]. intros (v & Hv & _). discriminate.
Qed.

Lemma port_of_spec (penv : gmap string string) :
  js_or (env_var penv "PORT") (JNum 3001) = port_of penv.
Proof.
  unfold js_or, env_var, port_of. destruct (penv !! "PORT") as [p|]; simpl; [|done].
  by destruct (String.eqb p EmptyString).
Qed.

(** X20. [config.ts] loads exactly when the three required variables are set
    to non-empty strings (an empty value counts as missing); the loaded
    object carries their values, and [PORT] when non-empty, else 3001. *)
Theorem X20_config_loads_exactly_when (penv : gmap string string) (c : Config) :
  load_config penv = Ok c
  ↔ ∃ g u k,
      present penv "GCP_PROJECT_ID" g ∧ present penv "IDENTITY_SERVICE_URL" u
      ∧ present penv "INTERNAL_API_KEY" k
      ∧ c = {| port := port_of penv; gcpProjectId := JStr g;
               identityServiceUrl := JStr u; internalApiKey := JStr k |}.
Proof.
  unfold load_config. rewrite port_of_spec.
  match goal with |- context [check_required ?get ?ks] =>
    pose proof (check_required_ok get ks) as Hreq;
    destruct (check_required get ks) as [[]|e] end.
  - destruct Hreq as [Hall _]. specialize (Hall eq_refl).
    assert (Hg := Hall "gcpProjectId"). assert (Hu := Hall "identityServiceUrl").
    assert (Hk := Hall "internalApiKey").
    unfold requiredSecrets, config_get in Hg, Hu, Hk. simpl in Hg, Hu, Hk.
    rewrite !elem_of_cons in Hg, Hu, Hk.
    apply truthy_env_var in Hg as [g Hg]; [|auto].
    apply truthy_env_var in Hu as [u Hu]; [|auto].
    apply truthy_env_var in Hk as [k Hk]; [|auto].
    assert (Hc : {| port := port_of penv;
                    gcpProjectId := env_var penv "GCP_PROJECT_ID";
                    identityServiceUrl := env_var penv "IDENTITY_SERVICE_URL";
                    internalApiKey := env_var penv "INTERNAL_API_KEY" |}
                 = {| port := port_of penv; gcpProjectId := JStr g;
                      identityServiceUrl := JStr u; internalApiKey := JStr k |}).
    { unfold env_var. destruct Hg as [-> _], Hu as [-> _], Hk as [-> _]. done. }
    rewrite Hc. split.
    + intros [= <-]. exists g, u, k. done.
    + intros (g' & u' & k' & [Hg' _] & [Hu' _] & [Hk' _] & ->).
      destruct Hg as [Hg _], Hu as [Hu _], Hk as [Hk _]. congruence.
  - split; [discriminate|].
    intros (g & u & k & Hg & Hu & Hk & _).
    assert (Hok : @Throw unit e = Ok tt); [|discriminate].
    apply Hreq. intros key Hkey. unfold requiredSecrets in Hkey.
    rewrite !elem_of_cons, elem_of_nil in Hkey.
    destruct Hkey as [->|[->|[->|[]]]]; unfold config_get; simpl;
      apply truthy_env_var; eauto.
Qed.

Lemma X20_config_loads_exactly_when_witness :
  load_config penv_no_port = Ok Sample.config
  ∧ ∃ g u k,
      present penv_no_port "GCP_PROJECT_ID" g
      ∧ present penv_no_port "IDENTITY_SERVICE_URL" u
      ∧ present penv_no_port "INTERNAL_API_KEY" k
      ∧ Sample.config
        = {| port := port_of penv_no_port; gcpProjectId := JStr g;
             identityServiceUrl := JStr u; internalApiKey := JStr k |}.
Proof.
  split; [reflexivity|].
  apply (X20_config_loads_exactly_when penv_no_port Sample.config). reflexivity.
Defined.

Lemma check_required_first (get : string → JsValue) (before : list string)
    (k : string) (after : list string) :
  (∀ k', k' ∈ before → truthy (get k') = true) → truthy (get k) = false →
  check_required get (before ++ k :: after)
  = Throw (JsError ("FATAL: Missing required environment variable: "
                    +:+ toUpperCase k)).
Proof.
  induction before as [|b before IH]; intros Hb Hk; simpl.
  - by rewrite Hk.
  - rewrite (Hb b) by apply list_elem_of_here. simpl.
    apply IH; [|exact Hk]. intros k' Hk'. apply Hb. by apply list_elem_of_further.
Qed.

(** X21. The error of a failed load names the first missing entry in the
    order of [requiredSecrets], as the upper-cased key of the config object
    (not the name of the environment variable). *)
Theorem X21_first_missing_secret_is_reported (penv : gmap string string) :
  (truthy (env_var penv "GCP_PROJECT_ID") = false →
   load_config penv
   = Throw (JsError "FATAL: Missing required environment variable: GCPPROJECTID"))
  ∧ (truthy (env_var penv "GCP_PROJECT_ID") = true →
     truthy (env_var penv "IDENTITY_SERVICE_URL") = false →
     load_config penv
     = Throw (JsError
                "FATAL: Missing required environment variable: IDENTITYSERVICEURL"))
  ∧ (truthy (env_var penv "GCP_PROJECT_ID") = true →
     truthy (env_var penv "IDENTITY_SERVICE_URL") = true →
     truthy (env_var penv "INTERNAL_API_KEY") = false →
     load_config penv
     = Throw (JsError "FATAL: Missing required environment variable: INTERNALAPIKEY")).
Proof.
  unfold load_config, requiredSecrets.
  match goal with |- context [check_required ?get _] =>
    pose proof (check_required_first get [] "gcpProjectId"
                  ["identityServiceUrl"; "internalApiKey"]) as H1;
    pose proof (check_required_first get ["gcpProjectId"] "identityServiceUrl"
                  ["internalApiKey"]) as H2;
    pose proof (check_required_first get ["gcpProjectId"; "identityServiceUrl"]
                  "internalApiKey" []) as H3
  end.
  cbn [app] in H1, H2, H3.
  split; [|split].
  - intros Hg. rewrite H1; [reflexivity| |exact Hg].
    intros k' Hk'. by apply elem_of_nil in Hk'.
  - intros Hg Hu. rewrite H2; [reflexivity| |exact Hu].
    intros k' Hk'. apply list_elem_of_singleton in Hk' as ->. exact Hg.
  - intros Hg Hu Hk. rewrite H3; [reflexivity| |exact Hk].
    intros k' Hk'. rewrite !elem_of_cons, elem_of_nil in Hk'.
    destruct Hk' as [->|[->|[]]]; assumption.
Qed.

(** X22. After a successful load, [startServer]'s own check of the project id
    and provider url always passes: start-up gets to the metadata request
    for the configured url, and ends without throwing. *)
Theorem X22_loaded_config_passes_the_start_check (E : Env) (penv : gmap string string)
    (c : Config) :
  load_config penv = Ok c →
  ∃ u rest,
    present penv "IDENTITY_SERVICE_URL" u
    ∧ fst (boot E penv) = Ok tt
    ∧ trace (snd (boot E penv)) = EvDiscover (JStr u) :: rest.
Proof.
  intros Hload. unfold boot. rewrite Hload.
  unfold load_config in Hload.
  match type of Hload with context [check_required ?get ?ks] =>
    pose proof (check_required_ok get ks) as Hreq;
    destruct (check_required get ks) as [[]|e]; [|discriminate] end.
  destruct Hreq as [Hall _]. specialize (Hall eq_refl).
  assert (Hg := Hall "gcpProjectId"). assert (Hu := Hall "identityServiceUrl").
  unfold requiredSecrets, config_get in Hg, Hu. simpl in Hg, Hu.
  rewrite !elem_of_cons in Hg, Hu.
  specialize (Hg (or_introl eq_refl)). specialize (Hu (or_intror (or_introl eq_refl))).
  injection Hload as <-.
  destruct (proj1 (truthy_env_var penv "IDENTITY_SERVICE_URL") Hu) as [u Hpu].
  destruct (start_exit_or_listen E
              {| port := js_or (env_var penv "PORT") (JNum 3001);
                 gcpProjectId := env_var penv "GCP_PROJECT_ID";
                 identityServiceUrl := env_var penv "IDENTITY_SERVICE_URL";
                 internalApiKey := env_var penv "INTERNAL_API_KEY" |}) as [Hok _].
  assert (Hurl : env_var penv "IDENTITY_SERVICE_URL" = JStr u).
  { unfold env_var. by destruct Hpu as [-> _]. }
  exists u. rewrite <- Hurl.
  unfold startServer, start_body in *. simpl. rewrite Hg, Hu. simpl.
  unfold try_catch, bind, emit, axios_result, read_prop, ret, throw.
  repeat match goal with
  | |- context [check_algorithms ?a ?st] =>
      let Hs := fresh "Hs" in
      destruct (check_algorithms_spec a st) as [Hs _];
      destruct (check_algorithms a st) as [[[]|?] ?]; simpl in Hs; subst
  | |- context [match ?x with _ => _ end] =>
      lazymatch x with
      | context [match _ with _ => _ end] => fail
      | context [check_algorithms] => fail
      | _ => destruct x eqn:?
      end; simpl
  end; simpl; eexists; (split; [exact Hpu|]); split; reflexivity.
Qed.

Lemma X22_loaded_config_passes_the_start_check_witness :
  load_config penv_no_port = Ok Sample.config
  ∧ ∃ u rest,
      present penv_no_port "IDENTITY_SERVICE_URL" u
      ∧ fst (boot Sample.env penv_no_port) = Ok tt
      ∧ trace (snd (boot Sample.env penv_no_port)) = EvDiscover (JStr u) :: rest.
Proof.
  split; [reflexivity|].
  apply (X22_loaded_config_passes_the_start_check Sample.env penv_no_port Sample.config).
  reflexivity.
Defined.


